(** * Adaptive honeypot: fingerprinting, event store and protocol handlers

    A shallow embedding of the honeypot's Python sources

      - [detectors/fingerprint.py]      ([detect_tool], [classify_client])
      - [honeypot_core/logger.py]       ([EventLogger])
      - [honeypot_core/http_honeypot.py], [ssh_honeypot.py], [ftp_honeypot.py]
      - [dashboard/app.py]              ([load_events], the two chart
                                         series, the table of recent events)

    together with the properties its specification states about them and
    further properties read off the code.

    Conventions.  [bytes] and [str] are both carried by [string]; a
    character stands for one byte, respectively one code point below 256.
    [str.lower] and [str.upper] act on the ASCII letters.  Library calls
    whose full behaviour is outside this repository (the UTF-8 codec,
    [int], [datetime.fromisoformat], the clock) are the methods of the
    class [Runtime]; a call that raises is a method that returns [None].

    A connection is the finite input its peer sends before closing; a
    line never exceeds the stream limit and a write never fails.  The
    database either takes an INSERT together with its commit or rejects
    both.  Floats are left out of the JSON values. *)

From Stdlib Require Import ZArith String Ascii List Lia Bool.
From stdpp Require Import base option gmap strings list sorting pretty.

Open Scope string_scope.
Open Scope list_scope.
Open Scope Z_scope.

(** ** Python text *)

Module PyStr.

Definition LF : string := String "010"%char EmptyString.
Definition CRLF : string := String "013"%char LF.
Definition DQUOTE : string := String "034"%char EmptyString.

Definition is_upper (c : ascii) : bool :=
  (65 <=? nat_of_ascii c)%nat && (nat_of_ascii c <=? 90)%nat.

Definition is_lower (c : ascii) : bool :=
  (97 <=? nat_of_ascii c)%nat && (nat_of_ascii c <=? 122)%nat.

Definition lower_char (c : ascii) : ascii :=
  if is_upper c then ascii_of_nat (nat_of_ascii c + 32) else c.

Definition upper_char (c : ascii) : ascii :=
  if is_lower c then ascii_of_nat (nat_of_ascii c - 32) else c.

Fixpoint smap (f : ascii → ascii) (s : string) : string :=
  match s with
  | EmptyString => EmptyString
  | String c s' => String (f c) (smap f s')
  end.

(** [s.lower()], [s.upper()] *)
Definition lower : string → string := smap lower_char.
Definition upper : string → string := smap upper_char.

(** [bool(s)]: a string is truthy when it is not empty. *)
Definition truthy (s : string) : bool :=
  match s with EmptyString => false | String _ _ => true end.

(** [bool(o)] for an [Optional[str]]. *)
Definition truthy_opt (o : option string) : bool :=
  match o with None => false | Some s => truthy s end.

(** [pat in s] *)
Fixpoint contains (pat s : string) : bool :=
  if String.prefix pat s then true
  else match s with
       | EmptyString => false
       | String _ s' => contains pat s'
       end.

(** [s.endswith(suffix)] *)
Definition endswith (suffix s : string) : bool :=
  String.prefix (String.rev suffix) (String.rev s).

(** Characters [str.strip()] and [str.split()] treat as white space,
    among the code points below 256. *)
Definition is_space (c : ascii) : bool :=
  let n := nat_of_ascii c in
  ((9 <=? n) && (n <=? 13) || (28 <=? n) && (n <=? 32)
   || (n =? 133) || (n =? 160))%nat.

Fixpoint lstrip (p : ascii → bool) (s : string) : string :=
  match s with
  | EmptyString => EmptyString
  | String c s' => if p c then lstrip p s' else s
  end.

Definition rstrip (p : ascii → bool) (s : string) : string :=
  String.rev (lstrip p (String.rev s)).

(** [s.strip()] *)
Definition strip (s : string) : string := rstrip is_space (lstrip is_space s).

(** [b.strip(chars)] for a byte string *)
Definition strip_chars (chars : string) (s : string) : string :=
  let p c := contains (String c EmptyString) chars in
  rstrip p (lstrip p s).

(** [s.split()]: the maximal runs of characters that are not white
    space; [cur] is the run being read. *)
Fixpoint split_go (cur : option string) (s : string) : list string :=
  match s with
  | EmptyString => option_list (String.rev <$> cur)
  | String c s' =>
      if is_space c
      then option_list (String.rev <$> cur) ++ split_go None s'
      else split_go (Some (String c (default EmptyString cur))) s'
  end.

Definition split : string → list string := split_go None.

(** [s.split(sep, 1)] for a one-character separator: [None] stands for
    the one-element list [[s]], [Some (a, b)] for [[a, b]]. *)
Fixpoint split1 (sep : ascii) (s : string) : option (string * string) :=
  match s with
  | EmptyString => None
  | String c s' =>
      if Ascii.eqb c sep then Some (EmptyString, s')
      else match split1 sep s' with
           | Some (a, b) => Some (String c a, b)
           | None => None
           end
  end.

(** [sep.join(xs)] *)
Fixpoint join (sep : string) (xs : list string) : string :=
  match xs with
  | [] => EmptyString
  | [x] => x
  | x :: rest => x +:+ sep +:+ join sep rest
  end.

End PyStr.

(** ** The Python runtime the sources call into *)

(** A [datetime]: an instant in microseconds ([dt_us]), and whether the
    value carries a time zone ([dt_aware]).  Comparing or subtracting an
    aware and a naive value raises [TypeError]. *)
Record datetime := { dt_aware : bool; dt_us : Z }.

Class Runtime := {
  (** [b.decode()]: strict UTF-8, [None] for [UnicodeDecodeError] *)
  decode_utf8 : string → option string;
  (** [b.decode(errors="replace")] *)
  decode_replace : string → string;
  (** [int(s)], [None] for [ValueError] *)
  py_int : string → option Z;
  (** [datetime.fromisoformat(s)], [None] when it raises *)
  fromisoformat : string → option datetime;
  (** [datetime.utcnow().isoformat()] at the n-th reading of the clock *)
  utcnow_isoformat : nat → string;
}.

(** ** detectors/fingerprint.py *)

Module fingerprint.

(** [scanner_signatures]: a dict literal, iterated in insertion order. *)
Definition scanner_signatures : list (string * list string) :=
  [ ("sqlmap", ["sqlmap"]);
    ("nikto", ["nikto"]);
    ("nmap", ["nmap"; "libwww-perl"; "python-requests"]);
    ("w3af", ["w3af"]);
    ("acunetix", ["acunetix"]);
    ("nessus", ["nessus"]) ].

Definition sql_keywords : list string :=
  ["select"; "union"; "sleep"; "benchmark"; "load_file"; "into outfile"].

(** The inner loop [for pat in patterns: if pat in ua: return tool]. *)
Fixpoint scan_patterns (ua tool : string) (patterns : list string)
  : option string :=
  match patterns with
  | [] => None
  | pat :: rest =>
      if PyStr.contains pat ua then Some tool
      else scan_patterns ua tool rest
  end.

(** The outer loop [for tool, patterns in scanner_signatures.items()]. *)
Fixpoint scan_signatures (ua : string) (table : list (string * list string))
  : option string :=
  match table with
  | [] => None
  | (tool, patterns) :: rest =>
      match scan_patterns ua tool patterns with
      | Some t => Some t
      | None => scan_signatures ua rest
      end
  end.

(** The block [if path: ...]; [None] when no [return] is reached. *)
Definition path_hint (path : option string) : option string :=
  match path with
  | Some p =>
      if PyStr.truthy p then
        let lower_path := PyStr.lower p in
        if PyStr.contains "wp-login" lower_path
           || PyStr.contains "wp-admin" lower_path
        then Some "wordpress_scanner"
        else if PyStr.contains "phpmyadmin" lower_path
        then Some "phpmyadmin_scanner"
        else if PyStr.contains "/etc/passwd" lower_path
        then Some "file_inclusion"
        else None
      else None
  | None => None
  end.

(** The block [if payload: ...]. *)
Definition payload_hint (payload : option string) : option string :=
  match payload with
  | Some p =>
      if PyStr.truthy p then
        let lower_payload := PyStr.lower p in
        if existsb (λ kw, PyStr.contains kw lower_payload) sql_keywords
        then Some "sql_injection"
        else None
      else None
  | None => None
  end.

(** The first two statements of [detect_tool]: the value of [ua] when
    the signature loop starts. *)
Definition signature_text (headers : gmap string string)
    (payload : option string) : string :=
  let ua :=
    if bool_decide (headers ≠ ∅)
    then PyStr.lower (default EmptyString (headers !! "User-Agent"))
    else EmptyString in
  if negb (PyStr.truthy ua) && PyStr.truthy_opt payload
  then PyStr.lower (default EmptyString payload)
  else ua.

Definition detect_tool (headers : gmap string string)
    (payload path : option string) (request_type : string)
  : option string :=
  let ua := signature_text headers payload in
  match scan_signatures ua scanner_signatures with
  | Some tool => Some tool
  | None =>
      match path_hint path with
      | Some tool => Some tool
      | None => payload_hint payload
      end
  end.

(** An entry of the per-IP history: the dict [{"timestamp": ts}]. *)
Record HistEntry := { timestamp : string }.

(** [history[-5:]] *)
Definition last5 {A} (history : list A) : list A :=
  drop (length history - 5)%nat history.

(** [a > b] and [a < b] on datetimes; [None] for [TypeError]. *)
Definition dt_gt (a b : datetime) : option bool :=
  if Bool.eqb (dt_aware a) (dt_aware b)
  then Some (dt_us b <? dt_us a) else None.

Definition dt_lt (a b : datetime) : option bool :=
  if Bool.eqb (dt_aware a) (dt_aware b)
  then Some (dt_us a <? dt_us b) else None.

(** [max(times)] and [min(times)]: one pass that keeps the best item
    seen so far and compares every later item with it. *)
Fixpoint best_go (better : datetime → datetime → option bool)
    (cur : datetime) (rest : list datetime) : option datetime :=
  match rest with
  | [] => Some cur
  | x :: rest' =>
      match better x cur with
      | Some true => best_go better x rest'
      | Some false => best_go better cur rest'
      | None => None
      end
  end.

Definition py_max (times : list datetime) : option datetime :=
  match times with [] => None | x :: rest => best_go dt_gt x rest end.

Definition py_min (times : list datetime) : option datetime :=
  match times with [] => None | x :: rest => best_go dt_lt x rest end.

(** [(a - b)] in microseconds; [None] for [TypeError]. *)
Definition dt_sub (a b : datetime) : option Z :=
  if Bool.eqb (dt_aware a) (dt_aware b)
  then Some (dt_us a - dt_us b) else None.

Section classify.
Context {rt : Runtime}.

(** The body of the [try] block: [Some true] when the [return "bot"]
    is reached, [Some false] when the block ends normally, [None]
    when it raises. *)
Definition rapid (timestamps : list string) : option bool :=
  times ← mapM fromisoformat timestamps;
  hi ← py_max times;
  lo ← py_min times;
  span ← dt_sub hi lo;
  Some (span <? 2000000).

(** [classify_client] returns its label; the second component is the
    content of the list object [history] when the call returns. *)
Definition classify_client (history : list HistEntry)
    (current_tool : option string) : string * list HistEntry :=
  if PyStr.truthy_opt current_tool then ("scanner", history)
  else if (5 <=? length history)%nat then
    let timestamps := map timestamp (last5 history) in
    match rapid timestamps with
    | Some true => ("bot", history)
    | Some false => ("human", history)
    | None => ("human", history)
    end
  else ("human", history).

End classify.

End fingerprint.

(** ** Exceptions *)

Inductive exn :=
  | OperationalError      (* sqlite3: the INSERT or its commit failed *)
  | IncompleteReadError   (* asyncio: EOF before [n] bytes *)
  | ValueError
  | UnicodeDecodeError.

Inductive res (A : Type) :=
  | Ok (a : A)
  | Raise (e : exn).
Arguments Ok {A} a.
Arguments Raise {A} e.

(** ** honeypot_core/logger.py *)

Module logger.

(** Python values a [meta] dict can hold, as far as [json.dumps]
    accepts them (floats left out). *)
#[warnings="-register-all"] Inductive pyval :=
  | PNone
  | PBool (b : bool)
  | PInt (z : Z)
  | PStr (s : string)
  | PList (xs : list pyval)
  | PTuple (xs : list pyval)
  | PDict (m : gmap string pyval).

(** The document a TEXT column holds after [json.dumps]. *)
#[warnings="-register-all"] Inductive json :=
  | JNull
  | JBool (b : bool)
  | JNum (z : Z)
  | JStr (s : string)
  | JArr (xs : list json)
  | JObj (m : gmap string json).

(** [json.dumps]: lists and tuples both become arrays. *)
Fixpoint json_dumps (v : pyval) : json :=
  match v with
  | PNone => JNull
  | PBool b => JBool b
  | PInt z => JNum z
  | PStr s => JStr s
  | PList xs => JArr (map json_dumps xs)
  | PTuple xs => JArr (map json_dumps xs)
  | PDict m => JObj (json_dumps <$> m)
  end.

(** [json.loads]: arrays become lists. *)
Fixpoint json_loads (j : json) : pyval :=
  match j with
  | JNull => PNone
  | JBool b => PBool b
  | JNum z => PInt z
  | JStr s => PStr s
  | JArr xs => PList (map json_loads xs)
  | JObj m => PDict (json_loads <$> m)
  end.

(** Values built without tuples. *)
#[warnings="-register-all"] Inductive json_native : pyval → Prop :=
  | native_none : json_native PNone
  | native_bool b : json_native (PBool b)
  | native_int z : json_native (PInt z)
  | native_str s : json_native (PStr s)
  | native_list xs : Forall json_native xs → json_native (PList xs)
  | native_dict (m : gmap string pyval) :
      (∀ k v, m !! k = Some v → json_native v) → json_native (PDict m).

(** A [Dict[str, str]] as a Python value. *)
Definition py_of_headers (h : gmap string string) : pyval :=
  PDict (PStr <$> h).

(** The keyword arguments of [log_event]. *)
Record LogArgs := {
  service : string;
  ip : string;
  port : Z;
  request_type : string;
  path : option string;
  payload : option string;
  headers : option (gmap string string);
  tool : option string;
  classification : option string;
  meta : option (gmap string pyval);
}.

(** The dict [event] appended to [self.events]. *)
Record Event := {
  ev_timestamp : string;
  ev_service : string;
  ev_ip : string;
  ev_port : Z;
  ev_request_type : string;
  ev_path : option string;
  ev_payload : option string;
  ev_headers : gmap string string;
  ev_tool : option string;
  ev_classification : option string;
  ev_meta : gmap string pyval;
}.

(** A row of the table [events]; a TEXT column that is NULL is [None]. *)
Record Row := {
  row_id : Z;
  row_timestamp : string;
  row_service : string;
  row_ip : string;
  row_port : Z;
  row_request_type : string;
  row_path : option string;
  row_payload : option string;
  row_headers : option json;
  row_tool : option string;
  row_classification : option string;
  row_meta : option json;
}.

(** A dict of the list [query_events] returns. *)
Record Fetched := {
  f_id : Z;
  f_timestamp : string;
  f_service : string;
  f_ip : string;
  f_port : Z;
  f_request_type : string;
  f_path : option string;
  f_payload : option string;
  f_headers : pyval;
  f_tool : option string;
  f_classification : option string;
  f_meta : pyval;
}.

(** The SQLite connection: the committed rows in insertion order, the
    AUTOINCREMENT counter kept in [sqlite_sequence], and whether the
    database currently accepts writes. *)
Record Db := {
  rows : list Row;
  seq : Z;
  writable : bool;
}.

Record EventLogger := {
  events : list Event;
  conn : Db;
}.

(** [EventLogger(db_path)] on a database file that does not exist yet. *)
Definition init : EventLogger :=
  {| events := []; conn := {| rows := []; seq := 0; writable := true |} |}.

Definition max_rowid (rs : list Row) : Z :=
  foldr (λ r m, Z.max (row_id r) m) 0 rs.

(** AUTOINCREMENT: one more than the largest id the table ever held. *)
Definition next_id (db : Db) : Z := Z.max (seq db) (max_rowid (rows db)) + 1.

(** [cur.execute("INSERT ...")] followed by [commit()]; [None] when
    SQLite raises. *)
Definition insert (db : Db) (mk : Z → Row) : option Db :=
  if writable db then
    let i := next_id db in
    Some {| rows := rows db ++ [mk i]; seq := i; writable := writable db |}
  else None.

(** The dict literal [event = {...}] of [log_event]. *)
Definition make_event (timestamp : string) (a : LogArgs) : Event :=
  {| ev_timestamp := timestamp;
     ev_service := service a;
     ev_ip := ip a;
     ev_port := port a;
     ev_request_type := request_type a;
     ev_path := path a;
     ev_payload := payload a;
     ev_headers := default ∅ (headers a);
     ev_tool := tool a;
     ev_classification := classification a;
     ev_meta := default ∅ (meta a) |}.

(** The parameters bound by the INSERT statement, with the id SQLite
    assigns. *)
Definition make_row (event : Event) (a : LogArgs) (i : Z) : Row :=
  {| row_id := i;
     row_timestamp := ev_timestamp event;
     row_service := service a;
     row_ip := ip a;
     row_port := port a;
     row_request_type := request_type a;
     row_path := path a;
     row_payload := payload a;
     row_headers := Some (json_dumps (py_of_headers (ev_headers event)));
     row_tool := tool a;
     row_classification := classification a;
     row_meta := Some (json_dumps (PDict (ev_meta event))) |}.

(** [log_event]; [timestamp] is what [datetime.utcnow().isoformat()]
    returns during the call. *)
Definition log_event (timestamp : string) (a : LogArgs) (self : EventLogger)
  : res unit * EventLogger :=
  let event := make_event timestamp a in
  (* self.events.append(event) *)
  let self := {| events := events self ++ [event]; conn := conn self |} in
  match insert (conn self) (make_row event a) with
  | Some db => (Ok (), {| events := events self; conn := db |})
  | None => (Raise OperationalError, self)
  end.

(** [ORDER BY id DESC] *)
Fixpoint insert_desc (r : Row) (sorted : list Row) : list Row :=
  match sorted with
  | [] => [r]
  | x :: rest =>
      if row_id x <? row_id r then r :: sorted
      else x :: insert_desc r rest
  end.

Definition order_by_id_desc (rs : list Row) : list Row :=
  foldr insert_desc [] rs.

(** [LIMIT ?]: a negative limit means no limit. *)
Definition sql_limit {A} (limit : Z) (l : list A) : list A :=
  if limit <? 0 then l else take (Z.to_nat limit) l.

(** [json.loads(col) if col else {}] *)
Definition parse_json_field (col : option json) : pyval :=
  match col with
  | Some doc => json_loads doc
  | None => PDict ∅
  end.

Definition fetched_of_row (r : Row) : Fetched :=
  {| f_id := row_id r;
     f_timestamp := row_timestamp r;
     f_service := row_service r;
     f_ip := row_ip r;
     f_port := row_port r;
     f_request_type := row_request_type r;
     f_path := row_path r;
     f_payload := row_payload r;
     f_headers := parse_json_field (row_headers r);
     f_tool := row_tool r;
     f_classification := row_classification r;
     f_meta := parse_json_field (row_meta r) |}.

Definition query_events (limit : Z) (self : EventLogger) : list Fetched :=
  map fetched_of_row (sql_limit limit (order_by_id_desc (rows (conn self)))).

End logger.

(** ** asyncio streams, the clock and the random source *)

Module StreamReader.

(** The bytes a peer sends before it closes its side, cut into the
    lines [readline()] returns one after the other: every line ends
    with its newline, except possibly the last. *)
Fixpoint feed_data (data : string) : list string :=
  match data with
  | EmptyString => []
  | String c data' =>
      if Ascii.eqb c "010"%char then String c EmptyString :: feed_data data'
      else match feed_data data' with
           | [] => [String c EmptyString]
           | line :: rest => String c line :: rest
           end
  end.

(** [await reader.readline()]: [b""] at EOF. *)
Definition readline (reader : list string) : string * list string :=
  match reader with
  | [] => (EmptyString, [])
  | line :: rest => (line, rest)
  end.

(** [await reader.readexactly(n)]; [None] when it raises ([n] negative,
    or EOF before [n] bytes). *)
Definition readexactly (n : Z) (reader : list string) : option string :=
  let data := PyStr.join EmptyString reader in
  if n <? 0 then None
  else if Z.of_nat (String.length data) <? n then None
  else Some (substring 0 (Z.to_nat n) data).

End StreamReader.

(** What a handler acts on besides its reader: the writer of the
    connection, the shared logger, the HTTP handler's [self.history], the
    number of clock readings so far and the outcomes of the coming
    [random.choice] calls. *)
Record World := {
  written : list string;
  closed : bool;
  log : logger.EventLogger;
  history : gmap string (list fingerprint.HistEntry);
  ticks : nat;
  entropy : list nat;
}.

Definition M (A : Type) : Type := World → res A * World.

#[export] Instance M_ret : MRet M := λ A a w, (Ok a, w).

#[export] Instance M_bind : MBind M := λ A B f m w,
  match m w with
  | (Ok a, w') => f a w'
  | (Raise e, w') => (Raise e, w')
  end.

(** [try: m except Exception: h] *)
Definition try_except {A} (m : M A) (h : M A) : M A := λ w,
  match m w with
  | (Ok a, w') => (Ok a, w')
  | (Raise _, w') => h w'
  end.

Module io.

(** [writer.write(chunk)] *)
Definition write (chunk : string) : M unit := λ w,
  (Ok (),
   {| written := written w ++ [chunk]; closed := closed w; log := log w;
      history := history w; ticks := ticks w; entropy := entropy w |}).

(** [await writer.drain()] *)
Definition drain : M unit := mret ().

(** [writer.close(); await writer.wait_closed()] *)
Definition close : M unit := λ w,
  (Ok (),
   {| written := written w; closed := true; log := log w;
      history := history w; ticks := ticks w; entropy := entropy w |}).

(** [random.choice(xs)] *)
Definition choice (xs : list string) : M string := λ w,
  let r := hd 0%nat (entropy w) in
  (Ok (nth (r mod length xs) xs EmptyString),
   {| written := written w; closed := closed w; log := log w;
      history := history w; ticks := ticks w; entropy := tl (entropy w) |}).

Section clock.
Context {rt : Runtime}.

(** [datetime.utcnow().isoformat()] *)
Definition utcnow : M string := λ w,
  (Ok (utcnow_isoformat (ticks w)),
   {| written := written w; closed := closed w; log := log w;
      history := history w; ticks := S (ticks w); entropy := entropy w |}).

(** [self.logger.log_event(...)] *)
Definition log_event (a : logger.LogArgs) : M unit := λ w,
  let '(r, lg) :=
    logger.log_event (utcnow_isoformat (ticks w)) a (log w) in
  (r,
   {| written := written w; closed := closed w; log := lg;
      history := history w; ticks := S (ticks w); entropy := entropy w |}).

End clock.

(** [hist = self.history.setdefault(ip, []); hist.append(entry)] *)
Definition history_append (ip : string) (entry : fingerprint.HistEntry)
  : M unit := λ w,
  let hist := default [] (history w !! ip) in
  (Ok (),
   {| written := written w; closed := closed w; log := log w;
      history := <[ip := hist ++ [entry]]> (history w);
      ticks := ticks w; entropy := entropy w |}).

(** A call [f(hist, ...)] on the list object [self.history[ip]]: the
    callee sees the list and leaves it with the content it returns. *)
Definition with_history {A} (ip : string)
    (f : list fingerprint.HistEntry → A * list fingerprint.HistEntry)
  : M A := λ w,
  let '(a, hist') := f (default [] (history w !! ip)) in
  (Ok a,
   {| written := written w; closed := closed w; log := log w;
      history := <[ip := hist']> (history w);
      ticks := ticks w; entropy := entropy w |}).

End io.

(** ** honeypot_core/http_honeypot.py *)

Module http_honeypot.
Import PyStr.

Section handler.
Context {rt : Runtime}.

(** The loop [while True: header_line = await reader.readline() ...]
    of [_read_http_request]; returns the headers and the reader left. *)
Fixpoint read_headers (reader : list string) (headers : gmap string string)
  : gmap string string * list string :=
  match reader with
  | [] => (headers, [])
  | header_line :: reader =>
      if negb (truthy header_line) then (headers, reader)
      else
        let header_str := strip (decode_replace header_line) in
        if negb (truthy header_str) then (headers, reader)
        else if contains ":" header_str then
          match split1 ":" header_str with
          | Some (key, value) =>
              read_headers reader (<[strip key := strip value]> headers)
          | None => read_headers reader headers
          end
        else read_headers reader headers
  end.

(** The block [# Read body if Content-Length present]. *)
Definition read_body (headers : gmap string string) (reader : list string)
  : option string :=
  match headers !! "Content-Length" with
  | Some content_length =>
      if truthy content_length then
        match py_int content_length with
        | Some length =>
            match StreamReader.readexactly length reader with
            | Some body_bytes => Some (decode_replace body_bytes)
            | None => None
            end
        | None => None
        end
      else None
  | None => None
  end.

Definition _read_http_request (reader : list string)
  : option (string * string * gmap string string * option string) :=
  let '(line, reader) := StreamReader.readline reader in
  if negb (truthy line) then None
  else
    match decode_utf8 line with
    | None => None
    | Some text =>
        let request_line := strip text in
        match split request_line with
        | method :: path :: _ =>
            let '(headers, reader) := read_headers reader ∅ in
            let body := read_body headers reader in
            Some (method, path, headers, body)
        | _ => None
        end
    end.

Definition server_headers : list string :=
  [ "Apache/2.4.29 (Ubuntu)"; "nginx/1.14.0 (Ubuntu)"; "lighttpd/1.4.45";
    "Microsoft-IIS/10.0"; "gunicorn/20.1.0"; "AmazonS3" ].

Definition _random_server_header : M string := io.choice server_headers.

Definition _send_response (body : string)
    (request_headers : gmap string string) : M unit :=
  server_header ← _random_server_header;
  powered_by ← io.choice
    [ "PHP/7.3.11"; "ASP.NET"; "Express"; "Django"; "Werkzeug/2.0.1";
      "Node.js" ];
  let response :=
    "HTTP/1.1 200 OK" +:+ CRLF
    +:+ "Server: " +:+ server_header +:+ CRLF
    +:+ "X-Powered-By: " +:+ powered_by +:+ CRLF
    +:+ "Content-Type: text/html; charset=utf-8" +:+ CRLF
    +:+ "Content-Length: " +:+ pretty (String.length body) +:+ CRLF
    +:+ "Connection: close" +:+ CRLF
    +:+ CRLF
    +:+ body in
  io.write response;;
  io.drain;;
  io.close.

Definition _generate_response_body (path : string)
    (detected_tool : option string) : M string :=
  let lower := lower path in
  if contains "wp-login" lower || contains "wp-admin" lower then
    mret ("<html><body><h1>WordPress Login</h1>"
          +:+ "<form><label>Username</label><input type='text' name='log' />"
          +:+ "<label>Password</label><input type='password' name='pwd' />"
          +:+ "<input type='submit' value='Log In' /></form>"
          +:+ "</body></html>")
  else if contains "phpmyadmin" lower then
    mret ("<html><body><h1>phpMyAdmin</h1>"
          +:+ "<form><label>Username</label><input type='text' name='pma_username' />"
          +:+ "<label>Password</label><input type='password' name='pma_password' />"
          +:+ "<input type='submit' value='Go' /></form>"
          +:+ "</body></html>")
  else if endswith "/.env" lower then
    mret ("APP_KEY=base64:psJxQ0ZkVJ9K8lkz2YoKZm" +:+ LF
          +:+ "DB_PASSWORD=secret")
  else if endswith "config.php" lower || endswith "config.inc.php" lower then
    mret ("<?php" +:+ LF +:+ "$db_host='localhost';" +:+ LF
          +:+ "$db_user='root';" +:+ LF +:+ "$db_pass='password';" +:+ LF
          +:+ "?>")
  else if bool_decide (detected_tool = Some "sqlmap") then
    mret ("<html><body><h1>Products</h1><p>Product ID: 1</p><p>Name: Widget</p>"
          +:+ "<form action='' method='post'><input name='id' /><input type='submit' value='Submit' /></form>"
          +:+ "<!-- SQL Injection hint -->"
          +:+ "</body></html>")
  else if bool_decide (detected_tool = Some "nikto") then
    mret ("<html><body><h1>Administration</h1><p>This area is restricted.</p>"
          +:+ "<a href='/admin.php'>Admin</a>"
          +:+ "</body></html>")
  else if bool_decide (detected_tool = Some "nmap") then
    mret "<html><body><h1>Welcome</h1><p>Hello there!</p></body></html>"
  else
    message ← io.choice
      [ "<h1>Welcome to our site!</h1><p>Under construction...</p>";
        "<h1>Shop</h1><p>Out of stock.</p>";
        "<h1>Blog</h1><p>No posts yet.</p>";
        "<h1>404 Not Found</h1><p>The requested resource could not be found.</p>" ];
    mret ("<html><body>" +:+ message +:+ "</body></html>").

(** The arguments of the handler's one [log_event] call. *)
Definition http_event (port : Z) (client_ip method path : string)
    (headers : gmap string string) (body detected_tool : option string)
    (classification : string) : logger.LogArgs :=
  {| logger.service := "http";
     logger.ip := client_ip;
     logger.port := port;
     logger.request_type := method;
     logger.path := Some path;
     logger.payload := body;
     logger.headers := Some headers;
     logger.tool := detected_tool;
     logger.classification := Some classification;
     logger.meta := Some ∅ |}.

(** [handle_client] for a handler bound to [port], a peer at
    [client_ip] and a [reader] holding what the peer sends. *)
Definition handle_client (port : Z) (client_ip : string)
    (reader : list string) : M unit :=
  try_except
    (match _read_http_request reader with
     | None => io.close
     | Some (method, path, headers, body) =>
         let detected_tool :=
           fingerprint.detect_tool headers body (Some path) method in
         ts ← io.utcnow;
         io.history_append client_ip {| fingerprint.timestamp := ts |};;
         classification ← io.with_history client_ip
           (λ hist, fingerprint.classify_client hist detected_tool);
         response_body ← _generate_response_body path detected_tool;
         io.log_event
           (http_event port client_ip method path headers body
              detected_tool classification);;
         _send_response response_body headers
     end)
    io.close.

End handler.

End http_honeypot.

(** ** honeypot_core/ssh_honeypot.py *)

Module ssh_honeypot.
Import PyStr.

Section handler.
Context {rt : Runtime}.

Definition _read_line (reader : list string)
  : option string * list string :=
  let '(line, reader) := StreamReader.readline reader in
  if negb (truthy line) then (None, reader)
  else (Some (decode_replace (strip_chars CRLF line)), reader).

(** The arguments of the [log_event] call of one round. *)
Definition login_event (port : Z) (client_ip username password : string)
    (attempts : nat) : logger.LogArgs :=
  {| logger.service := "ssh";
     logger.ip := client_ip;
     logger.port := port;
     logger.request_type := "LOGIN";
     logger.path := Some username;
     logger.payload := Some password;
     logger.headers := Some {[ "banner" := "OpenSSH_7.4p1" ]};
     logger.tool := fingerprint.detect_tool ∅ None None "SSH";
     logger.classification :=
       Some (if (1 <? attempts)%nat then "bot" else "unknown");
     logger.meta := Some ∅ |}.

(** The loop [while attempts < 3]; every pass that does not leave the
    loop raises [attempts], so [fuel] bounds the passes. *)
Fixpoint login_loop (fuel : nat) (port : Z) (client_ip : string)
    (attempts : nat) (reader : list string) : M unit :=
  match fuel with
  | O => mret ()
  | S fuel =>
      if (attempts <? 3)%nat then
        io.write "login as: ";;
        io.drain;;
        let '(username, reader) := _read_line reader in
        match username with
        | None => mret ()
        | Some username =>
            io.write (username +:+ "@server's password: ");;
            io.drain;;
            let '(password, reader) := _read_line reader in
            match password with
            | None => mret ()
            | Some password =>
                let attempts := S attempts in
                io.log_event
                  (login_event port client_ip username password attempts);;
                if (3 <=? attempts)%nat then
                  io.write ("Permission denied (publickey,password)."
                            +:+ CRLF);;
                  io.drain
                else
                  io.write ("Permission denied, please try again."
                            +:+ CRLF);;
                  io.drain;;
                  login_loop fuel port client_ip attempts reader
            end
        end
      else mret ()
  end.

Definition handle_client (port : Z) (client_ip : string)
    (reader : list string) : M unit :=
  io.write ("SSH-2.0-OpenSSH_7.4p1 Debian-10+deb9u6" +:+ CRLF);;
  io.drain;;
  login_loop 3 port client_ip 0 reader;;
  io.close.

End handler.

End ssh_honeypot.

(** ** honeypot_core/ftp_honeypot.py *)

Module ftp_honeypot.
Import PyStr.

Section handler.
Context {rt : Runtime}.

(** The arguments of the [log_event] call of one command. *)
Definition command_event (port : Z) (client_ip cmd arg : string)
  : logger.LogArgs :=
  {| logger.service := "ftp";
     logger.ip := client_ip;
     logger.port := port;
     logger.request_type := cmd;
     logger.path := Some arg;
     logger.payload := None;
     logger.headers := Some ∅;
     logger.tool := fingerprint.detect_tool ∅ None None cmd;
     logger.classification :=
       Some (if bool_decide (cmd ∈ ["USER"; "PASS"; "LIST"])
             then "bot" else "unknown");
     logger.meta := Some ∅ |}.

(** The loop [while True: line_bytes = await reader.readline() ...]. *)
Fixpoint command_loop (port : Z) (client_ip : string)
    (reader : list string) : M unit :=
  match reader with
  | [] => mret ()
  | line_bytes :: reader =>
      if negb (truthy line_bytes) then mret ()
      else
        let line := strip (decode_replace line_bytes) in
        if negb (truthy line) then command_loop port client_ip reader
        else
          let parts := split1 " " line in
          let cmd := upper (from_option fst line parts) in
          let arg := from_option snd EmptyString parts in
          io.log_event (command_event port client_ip cmd arg);;
          if String.eqb cmd "USER" then
            io.write ("331 Please specify the password." +:+ CRLF);;
            io.drain;;
            command_loop port client_ip reader
          else if String.eqb cmd "PASS" then
            io.write ("530 Login incorrect." +:+ CRLF);;
            io.drain;;
            command_loop port client_ip reader
          else if String.eqb cmd "PWD" then
            io.write ("257 " +:+ DQUOTE +:+ "/" +:+ DQUOTE
                      +:+ " is the current directory" +:+ CRLF);;
            io.drain;;
            command_loop port client_ip reader
          else if String.eqb cmd "LIST" then
            io.write ("150 Here comes the directory listing." +:+ CRLF);;
            io.write
              ("-rw-r--r-- 1 root root    0 Jan 01 00:00 README.txt" +:+ CRLF
               +:+ "drwxr-xr-x 2 root root 4096 Jan 01 00:00 data" +:+ CRLF);;
            io.write ("226 Directory send OK." +:+ CRLF);;
            io.drain;;
            command_loop port client_ip reader
          else if String.eqb cmd "QUIT" then
            io.write ("221 Goodbye." +:+ CRLF);;
            io.drain
          else
            io.write ("502 Command not implemented." +:+ CRLF);;
            io.drain;;
            command_loop port client_ip reader
  end.

Definition handle_client (port : Z) (client_ip : string)
    (reader : list string) : M unit :=
  io.write ("220 (vsFTPd 3.0.3)" +:+ CRLF);;
  io.drain;;
  command_loop port client_ip reader;;
  io.close.

End handler.

End ftp_honeypot.

(** ** A runtime instance: ASCII traffic and a clock of one-second ticks *)

Module ascii_runtime.

Fixpoint all_ascii (s : string) : bool :=
  match s with
  | EmptyString => true
  | String c s' => (nat_of_ascii c <? 128)%nat && all_ascii s'
  end.

Definition digit (c : ascii) : option Z :=
  let n := nat_of_ascii c in
  if (48 <=? n)%nat && (n <=? 57)%nat then Some (Z.of_nat n - 48) else None.

(** The value of a non-empty string of decimal digits. *)
Fixpoint digits_go (acc : Z) (s : string) : option Z :=
  match s with
  | EmptyString => Some acc
  | String c s' =>
      match digit c with
      | Some d => digits_go (10 * acc + d) s'
      | None => None
      end
  end.

Definition digits (s : string) : option Z :=
  match s with
  | EmptyString => None
  | _ => digits_go 0 s
  end.

(** [int(s)] on an optional sign followed by decimal digits. *)
Definition int (s : string) : option Z :=
  match PyStr.strip s with
  | String "-"%char s' => Z.opp <$> digits s'
  | String "+"%char s' => digits s'
  | s' => digits s'
  end.

(** Days from 1970-01-01 to the given civil date. *)
Definition days_from_civil (y m d : Z) : Z :=
  let y := if m <=? 2 then y - 1 else y in
  let era := y / 400 in
  let yoe := y - era * 400 in
  let mp := (m + 9) mod 12 in
  let doy := (153 * mp + 2) / 5 + d - 1 in
  let doe := yoe * 365 + yoe / 4 - yoe / 100 + doy in
  era * 146097 + doe - 719468.

Definition field (start len : nat) (s : string) : option Z :=
  digits (substring start len s).

(** [YYYY-MM-DDTHH:MM:SS] with an optional [.ffffff], as
    [datetime.isoformat()] writes a naive value. *)
Definition parse_iso (s : string) : option datetime :=
  y ← field 0 4 s; mo ← field 5 2 s; d ← field 8 2 s;
  h ← field 11 2 s; mi ← field 14 2 s; sec ← field 17 2 s;
  us ← (if (String.length s =? 19)%nat then Some 0
        else if (String.length s =? 26)%nat then field 20 6 s
        else None);
  if String.eqb (substring 4 1 s) "-" && String.eqb (substring 7 1 s) "-"
     && String.eqb (substring 10 1 s) "T" && String.eqb (substring 13 1 s) ":"
     && String.eqb (substring 16 1 s) ":"
  then Some {| dt_aware := false;
               dt_us := (((days_from_civil y mo d * 24 + h) * 60 + mi) * 60
                         + sec) * 1000000 + us |}
  else None.

Definition two (n : nat) : string :=
  (if (n <? 10)%nat then "0" else EmptyString) +:+ pretty n.

(** A clock that starts at midnight and advances one second per reading. *)
Definition clock (n : nat) : string :=
  "2024-01-01T00:" +:+ two ((n / 60) mod 60) +:+ ":" +:+ two (n mod 60)
  +:+ ".000000".

#[export] Instance runtime : Runtime := {|
  decode_utf8 s := if all_ascii s then Some s else None;
  decode_replace s :=
    PyStr.smap (λ c, if (nat_of_ascii c <? 128)%nat then c else "?"%char) s;
  py_int := int;
  fromisoformat := parse_iso;
  utcnow_isoformat := clock;
|}.

Definition world0 : World :=
  {| written := []; closed := false; log := logger.init; history := ∅;
     ticks := 0; entropy := [] |}.

End ascii_runtime.


(** ** dashboard/app.py *)

Module dashboard.
Import logger.

(** [ORDER BY id ASC] *)
Fixpoint insert_asc (r : Row) (sorted : list Row) : list Row :=
  match sorted with
  | [] => [r]
  | x :: rest =>
      if row_id r <? row_id x then r :: sorted
      else x :: insert_asc r rest
  end.

Definition order_by_id_asc (rs : list Row) : list Row :=
  foldr insert_asc [] rs.

(** [try: json.loads(col) except Exception: {}]; a NULL column makes
    [json.loads] raise. *)
Definition loads_or_empty (col : option json) : pyval :=
  match col with
  | Some doc => json_loads doc
  | None => PDict ∅
  end.

(** [event = dict(row)] with the two JSON columns parsed. *)
Definition event_of_row (r : Row) : Fetched :=
  {| f_id := row_id r;
     f_timestamp := row_timestamp r;
     f_service := row_service r;
     f_ip := row_ip r;
     f_port := row_port r;
     f_request_type := row_request_type r;
     f_path := row_path r;
     f_payload := row_payload r;
     f_headers := loads_or_empty (row_headers r);
     f_tool := row_tool r;
     f_classification := row_classification r;
     f_meta := loads_or_empty (row_meta r) |}.

(** [load_events(db_path)] on the database file the logger writes. *)
Definition load_events (db : Db) : list Fetched :=
  map event_of_row (order_by_id_asc (rows db)).

(** [counts[key] += 1] on a [Counter] or a [defaultdict(int)]: a dict
    keeps its keys in the order of their first insertion. *)
Fixpoint count_up (key : string) (counts : list (string * nat))
  : list (string * nat) :=
  match counts with
  | [] => [(key, 1%nat)]
  | (k, n) :: rest =>
      if String.eqb k key then (k, S n) :: rest
      else (k, n) :: count_up key rest
  end.

(** [Counter(xs)] *)
Definition Counter (xs : list string) : list (string * nat) :=
  foldl (λ counts x, count_up x counts) [] xs.

(** [e["tool"] or "unknown"] *)
Definition or_unknown (tool : option string) : string :=
  match tool with
  | Some t => if PyStr.truthy t then t else "unknown"
  | None => "unknown"
  end.

Definition compute_tool_counts (events : list Fetched)
  : list string * list nat :=
  let tools := map (λ e, or_unknown (f_tool e)) events in
  let counter := Counter tools in
  (map fst counter, map snd counter).

(** [a < b] on [(str, int)] tuples. *)
Definition item_lt (a b : string * nat) : bool :=
  String.ltb a.1 b.1 || (String.eqb a.1 b.1 && (a.2 <? b.2)%nat).

(** [sorted(items)]: a stable sort that compares with [<] only. *)
Fixpoint insert_sorted (x : string * nat) (sorted : list (string * nat))
  : list (string * nat) :=
  match sorted with
  | [] => [x]
  | y :: rest =>
      if item_lt x y then x :: sorted
      else y :: insert_sorted x rest
  end.

Definition sorted (items : list (string * nat)) : list (string * nat) :=
  foldl (λ acc x, insert_sorted x acc) [] items.

Section time_series.

(** [datetime.fromisoformat(ts).strftime("%Y-%m-%d %H:%M")]; [None]
    when the call raises. *)
Variable minute_of : string → option string.

Definition minute_key (ts : string) : string :=
  match minute_of ts with
  | Some key => key
  | None => "unknown"
  end.

Definition compute_time_series (events : list Fetched)
  : list string * list nat :=
  let counts :=
    foldl (λ counts event, count_up (minute_key (f_timestamp event)) counts)
      [] events in
  let items := sorted counts in
  (map fst items, map snd items).

End time_series.




(** [reversed(events[-50:])] *)
Definition recent (events : list Fetched) : list Fetched :=
  rev (drop (length events - 50)%nat events).


End dashboard.

(** * The specification's vocabulary *)

Module spec.

(** [pat] is a substring of [s]. *)
Definition occurs (pat s : string) : Prop :=
  ∃ pre post, s = pre +:+ pat +:+ post.

Definition any_occurs (pats : list string) (s : string) : Prop :=
  ∃ pat, pat ∈ pats ∧ occurs pat s.

(** A value is present when it is there and not empty. *)
Definition present (o : option string) (s : string) : Prop :=
  o = Some s ∧ s ≠ EmptyString.

Definition absent (o : option string) : Prop :=
  o = None ∨ o = Some EmptyString.

(** *** Fingerprint Engine *)

(** The fixed substring table, in precedence order. *)
Definition signature_table : list (string * list string) :=
  [ ("sqlmap", ["sqlmap"]);
    ("nikto", ["nikto"]);
    ("nmap", ["nmap"; "libwww-perl"; "python-requests"]);
    ("w3af", ["w3af"]);
    ("acunetix", ["acunetix"]);
    ("nessus", ["nessus"]) ].

(** First entry of the table with a pattern that occurs in [s]. *)
Inductive first_match (s : string)
  : list (string * list string) → option string → Prop :=
  | fm_none : first_match s [] None
  | fm_here label pats rest :
      any_occurs pats s → first_match s ((label, pats) :: rest) (Some label)
  | fm_later label pats rest r :
      ¬ any_occurs pats s → first_match s rest r →
      first_match s ((label, pats) :: rest) r.

(** Steps 1 and 2: the text the table is applied to, lower-cased. *)
Inductive signature_source (headers : gmap string string)
    (payload : option string) : string → Prop :=
  | src_user_agent ua :
      present (headers !! "User-Agent") ua →
      signature_source headers payload (PyStr.lower ua)
  | src_payload p :
      absent (headers !! "User-Agent") → present payload p →
      signature_source headers payload (PyStr.lower p)
  | src_nothing :
      absent (headers !! "User-Agent") → absent payload →
      signature_source headers payload EmptyString.

(** Step 3: the known paths. *)
Inductive path_rule (path : option string) : option string → Prop :=
  | path_wordpress p :
      present path p →
      occurs "wp-login" (PyStr.lower p) ∨ occurs "wp-admin" (PyStr.lower p) →
      path_rule path (Some "wordpress_scanner")
  | path_phpmyadmin p :
      present path p →
      ¬ occurs "wp-login" (PyStr.lower p) → ¬ occurs "wp-admin" (PyStr.lower p) →
      occurs "phpmyadmin" (PyStr.lower p) →
      path_rule path (Some "phpmyadmin_scanner")
  | path_passwd p :
      present path p →
      ¬ occurs "wp-login" (PyStr.lower p) → ¬ occurs "wp-admin" (PyStr.lower p) →
      ¬ occurs "phpmyadmin" (PyStr.lower p) →
      occurs "/etc/passwd" (PyStr.lower p) →
      path_rule path (Some "file_inclusion")
  | path_unknown p :
      present path p →
      ¬ any_occurs ["wp-login"; "wp-admin"; "phpmyadmin"; "/etc/passwd"]
          (PyStr.lower p) →
      path_rule path None
  | path_absent : absent path → path_rule path None.

(** Step 4: the SQL keyword set. *)
Definition sql_keyword_set : list string :=
  ["select"; "union"; "sleep"; "benchmark"; "load_file"; "into outfile"].

Inductive payload_rule (payload : option string) : option string → Prop :=
  | payload_sql p :
      present payload p → any_occurs sql_keyword_set (PyStr.lower p) →
      payload_rule payload (Some "sql_injection")
  | payload_clean p :
      present payload p → ¬ any_occurs sql_keyword_set (PyStr.lower p) →
      payload_rule payload None
  | payload_absent : absent payload → payload_rule payload None.

(** The five steps in precedence order, first match wins. *)
Inductive detect_tool_spec (headers : gmap string string)
    (payload path : option string) : option string → Prop :=
  | by_signature src label :
      signature_source headers payload src →
      first_match src signature_table (Some label) →
      detect_tool_spec headers payload path (Some label)
  | by_path src label :
      signature_source headers payload src →
      first_match src signature_table None →
      path_rule path (Some label) →
      detect_tool_spec headers payload path (Some label)
  | by_payload src r :
      signature_source headers payload src →
      first_match src signature_table None →
      path_rule path None →
      payload_rule payload r →
      detect_tool_spec headers payload path r.

End spec.

Module spec_classify.

Section with_runtime.
Context {rt : Runtime}.

(** [times] are the instants the timestamps of [entries] denote. *)
Definition parsed (entries : list fingerprint.HistEntry)
    (times : list datetime) : Prop :=
  Forall2 (λ e t, fromisoformat (fingerprint.timestamp e) = Some t)
    entries times.

End with_runtime.

(** All instants are of one kind (all naive or all aware). *)
Definition comparable (times : list datetime) : Prop :=
  ∀ a b, a ∈ times → b ∈ times → dt_aware a = dt_aware b.

(** The span between the earliest and the latest instant is below
    [bound] microseconds. *)
Definition span_below (bound : Z) (times : list datetime) : Prop :=
  ∀ a b, a ∈ times → b ∈ times → dt_us a - dt_us b < bound.

(** No tool was detected: [None] or the empty string. *)
Definition no_tool (tool : option string) : Prop := spec.absent tool.

End spec_classify.

Module spec_store.
Import logger.

(** A database this program has written: ids ascend in insertion order
    and none exceeds the AUTOINCREMENT counter. *)
Definition wf_db (db : Db) : Prop :=
  StronglySorted (λ a b, row_id a < row_id b) (rows db)
  ∧ Forall (λ r, row_id r ≤ seq db) (rows db)
  ∧ 0 ≤ seq db.

(** One call of [log_event], with the time the clock shows and whether
    the database accepts writes when the call is made. *)
Record Call := {
  writable_now : bool;
  call_time : string;
  call_args : LogArgs;
}.

Definition set_writable (b : bool) (self : EventLogger) : EventLogger :=
  {| events := events self;
     conn := {| rows := rows (conn self); seq := seq (conn self);
                writable := b |} |}.

Definition step (self : EventLogger) (c : Call) : EventLogger :=
  (log_event (call_time c) (call_args c)
     (set_writable (writable_now c) self)).2.

(** The logger after a sequence of calls. *)
Definition run (calls : list Call) (self : EventLogger) : EventLogger :=
  foldl step self calls.

Definition succeeded (calls : list Call) : list Call :=
  filter (λ c, writable_now c = true) calls.

(** What the store must hand back for an event appended with the given
    arguments, once it has been given [id]: every field as appended,
    the two maps after their trip through JSON. *)
Definition stored (id : Z) (timestamp : string) (a : LogArgs) : Fetched :=
  {| f_id := id;
     f_timestamp := timestamp;
     f_service := service a;
     f_ip := ip a;
     f_port := port a;
     f_request_type := request_type a;
     f_path := path a;
     f_payload := payload a;
     f_headers := py_of_headers (default ∅ (headers a));
     f_tool := tool a;
     f_classification := classification a;
     f_meta := json_loads (json_dumps (PDict (default ∅ (meta a)))) |}.

(** The events of [calls] as the store hands them back when the first
    of them gets the id [base + 1], oldest first. *)
Definition stored_from (base : Z) (calls : list Call) : list Fetched :=
  imap (λ i c, stored (base + 1 + Z.of_nat i) (call_time c) (call_args c))
    calls.

(** The rows [calls] leave behind when the first successful one gets
    the id [base + 1]. *)
Definition rows_from (base : Z) (calls : list Call) : list Row :=
  imap (λ i c, make_row (make_event (call_time c) (call_args c))
                 (call_args c) (base + 1 + Z.of_nat i)) calls.


End spec_store.

Module spec_http.

Section with_runtime.
Context {rt : Runtime}.


End with_runtime.


(** [w] after the connection was closed and nothing else happened. *)
Definition only_closed (w : World) : World :=
  {| written := written w; closed := true; log := log w;
     history := history w; ticks := ticks w; entropy := entropy w |}.

End spec_http.

Module spec_session.

(** The [log_event] calls of a session that finds the database
    writable: the i-th call is made at the i-th reading of the clock
    after [t0]. *)
Section with_runtime.
Context {rt : Runtime}.

Definition calls_from (t0 : nat) (args : list logger.LogArgs)
  : list spec_store.Call :=
  imap (λ i a, {| spec_store.writable_now := true;
                  spec_store.call_time := utcnow_isoformat (i + t0);
                  spec_store.call_args := a |}) args.

End with_runtime.

End spec_session.

Module spec_ssh.
Import PyStr.

Definition banner : string :=
  "SSH-2.0-OpenSSH_7.4p1 Debian-10+deb9u6" +:+ CRLF.
Definition login_prompt : string := "login as: ".
Definition password_prompt (username : string) : string :=
  username +:+ "@server's password: ".
Definition retry_rejection : string :=
  "Permission denied, please try again." +:+ CRLF.
Definition final_rejection : string :=
  "Permission denied (publickey,password)." +:+ CRLF.

Section with_runtime.
Context {rt : Runtime}.

(** A line the peer sent, without its line end, as text. *)
Definition text_of (line : string) : string :=
  decode_replace (strip_chars CRLF line).

(** The (username, password) pairs of the rounds the peer completes,
    at most [n]: a round is complete when both lines arrive. *)
Fixpoint completed_rounds (n : nat) (reader : list string)
  : list (string * string) :=
  match n, reader with
  | S n, username :: password :: rest =>
      if truthy username && truthy password
      then (text_of username, text_of password) :: completed_rounds n rest
      else []
  | _, _ => []
  end.

(** The prompts of a round the peer leaves unanswered. *)
Definition unanswered (reader : list string) : list string :=
  match reader with
  | username :: _ =>
      if truthy username
      then [login_prompt; password_prompt (text_of username)]
      else [login_prompt]
  | [] => [login_prompt]
  end.

End with_runtime.

(** The event of round [number] (counted from 1). *)
Definition round_event (port : Z) (client_ip : string) (number : nat)
    (round : string * string) : logger.LogArgs :=
  {| logger.service := "ssh";
     logger.ip := client_ip;
     logger.port := port;
     logger.request_type := "LOGIN";
     logger.path := Some round.1;
     logger.payload := Some round.2;
     logger.headers := Some {[ "banner" := "OpenSSH_7.4p1" ]};
     logger.tool := None;
     logger.classification :=
       Some (if decide (number = 1%nat) then "unknown" else "bot");
     logger.meta := Some ∅ |}.

(** Rounds 1 and 2 end with the retry rejection, round 3 with the
    final one. *)
Definition rejection (number : nat) : string :=
  if decide (number < 3)%nat then retry_rejection else final_rejection.

Definition round_output (number : nat) (round : string * string)
  : list string :=
  [login_prompt; password_prompt round.1; rejection number].

(** Events and output of the rounds numbered [first], [first + 1], ... *)
Definition events_from (port : Z) (client_ip : string) (first : nat)
    (rounds : list (string * string)) : list logger.LogArgs :=
  imap (λ i r, round_event port client_ip (first + i) r) rounds.

Definition output_from (first : nat) (rounds : list (string * string))
  : list string :=
  concat (imap (λ i r, round_output (first + i) r) rounds).

Section after.
Context {rt : Runtime}.

(** The world the rounds after the first [k] leave behind, on a
    database that takes the inserts. *)
Definition after_rounds (port : Z) (client_ip : string) (k : nat)
    (reader : list string) (w : World) : World :=
  let rounds := completed_rounds (3 - k) reader in
  {| written :=
       written w ++ output_from (S k) rounds
       ++ (if decide (k + length rounds < 3)%nat
           then unanswered (drop (2 * length rounds) reader) else []);
     closed := closed w;
     log := spec_store.run
              (spec_session.calls_from (ticks w)
                 (events_from port client_ip (S k) rounds))
              (log w);
     history := history w;
     ticks := (length rounds + ticks w)%nat;
     entropy := entropy w |}.

End after.

End spec_ssh.

Module spec_ftp.
Import PyStr.

Definition greeting : string := "220 (vsFTPd 3.0.3)" +:+ CRLF.
Definition goodbye : string := "221 Goodbye." +:+ CRLF.
Definition not_implemented : string :=
  "502 Command not implemented." +:+ CRLF.

Section with_runtime.
Context {rt : Runtime}.

(** The verb and the remainder of a line; [None] for an empty line. *)
Definition command_of (line_bytes : string) : option (string * string) :=
  let line := strip (decode_replace line_bytes) in
  if decide (line = EmptyString) then None
  else match split1 " " line with
       | Some (verb, remainder) => Some (upper verb, remainder)
       | None => Some (upper line, EmptyString)
       end.

(** The commands the server acts on: the lines up to the end of the
    input or up to and including the first QUIT, empty lines left
    out. *)
Fixpoint commands (reader : list string) : list (string * string) :=
  match reader with
  | [] => []
  | line_bytes :: rest =>
      if truthy line_bytes then
        match command_of line_bytes with
        | None => commands rest
        | Some command =>
            command :: (if decide (command.1 = "QUIT") then []
                        else commands rest)
        end
      else []
  end.

End with_runtime.

Definition command_event (port : Z) (client_ip : string)
    (command : string * string) : logger.LogArgs :=
  {| logger.service := "ftp";
     logger.ip := client_ip;
     logger.port := port;
     logger.request_type := command.1;
     logger.path := Some command.2;
     logger.payload := None;
     logger.headers := Some ∅;
     logger.tool := None;
     logger.classification :=
       Some (if decide (command.1 ∈ ["USER"; "PASS"; "LIST"])
             then "bot" else "unknown");
     logger.meta := Some ∅ |}.

Definition reply (command : string * string) : list string :=
  if decide (command.1 = "USER") then
    ["331 Please specify the password." +:+ CRLF]
  else if decide (command.1 = "PASS") then
    ["530 Login incorrect." +:+ CRLF]
  else if decide (command.1 = "PWD") then
    ["257 " +:+ DQUOTE +:+ "/" +:+ DQUOTE +:+ " is the current directory"
     +:+ CRLF]
  else if decide (command.1 = "LIST") then
    ["150 Here comes the directory listing." +:+ CRLF;
     "-rw-r--r-- 1 root root    0 Jan 01 00:00 README.txt" +:+ CRLF
     +:+ "drwxr-xr-x 2 root root 4096 Jan 01 00:00 data" +:+ CRLF;
     "226 Directory send OK." +:+ CRLF]
  else if decide (command.1 = "QUIT") then [goodbye]
  else [not_implemented].

Section after.
Context {rt : Runtime}.

(** The world the command loop leaves behind, on a database that
    takes the inserts. *)
Definition after_commands (port : Z) (client_ip : string)
    (reader : list string) (w : World) : World :=
  let cmds := commands reader in
  {| written := written w ++ concat (map reply cmds);
     closed := closed w;
     log := spec_store.run
              (spec_session.calls_from (ticks w)
                 (map (command_event port client_ip) cmds))
              (log w);
     history := history w;
     ticks := (length cmds + ticks w)%nat;
     entropy := entropy w |}.

End after.

End spec_ftp.

(** * Sample traffic *)

Module samples.
Import PyStr.

Definition wp_login_request : string :=
  "GET /wp-login.php HTTP/1.1" +:+ CRLF +:+ "Host: x" +:+ CRLF +:+ CRLF.


Definition three_logins : string :=
  "root" +:+ CRLF +:+ "toor" +:+ CRLF
  +:+ "admin" +:+ CRLF +:+ "admin" +:+ CRLF
  +:+ "pi" +:+ CRLF +:+ "raspberry" +:+ CRLF.

Definition ftp_session : string :=
  "USER a" +:+ CRLF +:+ "PASS b" +:+ CRLF +:+ "PWD" +:+ CRLF
  +:+ "LIST" +:+ CRLF +:+ "QUIT" +:+ CRLF.


Definition login (user : string) : logger.LogArgs :=
  {| logger.service := "ssh"; logger.ip := "203.0.113.9";
     logger.port := 2222; logger.request_type := "LOGIN";
     logger.path := Some user; logger.payload := Some "secret";
     logger.headers := Some {[ "banner" := "OpenSSH_7.4p1" ]};
     logger.tool := None; logger.classification := Some "bot";
     logger.meta := Some {[ "try" := logger.PList [logger.PInt 1] ]} |}.

Definition midnight : string := "2024-01-01T00:00:00.000000".

Definition two_logins_same_instant : list spec_store.Call :=
  [ {| spec_store.writable_now := true; spec_store.call_time := midnight;
       spec_store.call_args := login "root" |};
    {| spec_store.writable_now := true; spec_store.call_time := midnight;
       spec_store.call_args := login "admin" |} ].

Definition read_only_store : logger.EventLogger :=
  spec_store.set_writable false logger.init.

End samples.

(** * Vocabulary for further properties *)

Module spec_more.

(** Every label [detect_tool] can return. *)
Definition tool_labels : list string :=
  [ "sqlmap"; "nikto"; "nmap"; "w3af"; "acunetix"; "nessus";
    "wordpress_scanner"; "phpmyadmin_scanner"; "file_inclusion";
    "sql_injection" ].

(** [counts.get(key, 0)] *)
Fixpoint count_of (key : string) (counts : list (string * nat)) : nat :=
  match counts with
  | [] => 0%nat
  | (k, n) :: rest => if String.eqb k key then n else count_of key rest
  end.

(** [a < b] on [str]. *)
Definition str_lt (a b : string) : Prop := String.ltb a b = true.

End spec_more.

Module samples_more.
Import PyStr.

Definition entry (ts : string) : fingerprint.HistEntry :=
  {| fingerprint.timestamp := ts |}.

(** Five requests within one second. *)
Definition burst : list fingerprint.HistEntry :=
  [ entry "2024-01-01T00:00:00.000000"; entry "2024-01-01T00:00:00.200000";
    entry "2024-01-01T00:00:00.400000"; entry "2024-01-01T00:00:00.600000";
    entry "2024-01-01T00:00:00.800000" ].

Definition old_visits : list fingerprint.HistEntry :=
  [ entry "2023-12-24T18:00:00.000000"; entry "not a timestamp" ].

(** A handler's world whose database rejects every insert. *)
Definition offline_world : World :=
  {| written := []; closed := false; log := samples.read_only_store;
     history := ∅; ticks := 0; entropy := [] |}.


End samples_more.

(** * Sanity checks of the embedding *)

Example lower_mixed : PyStr.lower "SqlMap/1.5 (X11)" = "sqlmap/1.5 (x11)".
Proof. reflexivity. Qed.

Example contains_mid : PyStr.contains "nmap" "mozilla nmap engine" = true.
Proof. reflexivity. Qed.

Example split_request_line :
  PyStr.split "GET  /index.html HTTP/1.1" = ["GET"; "/index.html"; "HTTP/1.1"].
Proof. reflexivity. Qed.

Example split1_header :
  PyStr.split1 ":" "Host: a:b" = Some ("Host", " a:b").
Proof. reflexivity. Qed.

Example strip_line : PyStr.strip ("  USER a" +:+ PyStr.CRLF) = "USER a".
Proof. reflexivity. Qed.

Example detect_sqlmap_ua :
  fingerprint.detect_tool {[ "User-Agent" := "sqlmap/1.5.2#stable" ]}
    None (Some "/") "GET" = Some "sqlmap".
Proof. reflexivity. Qed.

Example detect_payload_as_signature :
  fingerprint.detect_tool {[ "Host" := "x" ]} (Some "Nmap probe") (Some "/") "POST"
  = Some "nmap".
Proof. reflexivity. Qed.

Example detect_ua_shadows_payload :
  fingerprint.detect_tool {[ "User-Agent" := "curl/8" ]} (Some "nikto") (Some "/") "POST"
  = None.
Proof. reflexivity. Qed.

Example detect_path_then_sql :
  fingerprint.detect_tool ∅ (Some "id=1 UNION SELECT 1") (Some "/WP-Admin/") "POST"
  = Some "wordpress_scanner"
  ∧ fingerprint.detect_tool ∅ (Some "id=1 UNION SELECT 1") (Some "/") "POST"
  = Some "sql_injection".
Proof. split; reflexivity. Qed.

Example feed_two_lines :
  StreamReader.feed_data ("USER a" +:+ PyStr.CRLF +:+ "QUIT")
  = ["USER a" +:+ PyStr.CRLF; "QUIT"].
Proof. reflexivity. Qed.

Example parse_iso_epoch :
  ascii_runtime.parse_iso "1970-01-02T00:00:01.000005"
  = Some {| dt_aware := false; dt_us := 86401000005 |}.
Proof. reflexivity. Qed.

Example json_tuple_comes_back_as_list :
  logger.json_loads
    (logger.json_dumps
       (logger.PDict {[ "ports" := logger.PTuple [logger.PInt 22; logger.PInt 80] ]}))
  = logger.PDict {[ "ports" := logger.PList [logger.PInt 22; logger.PInt 80] ]}.
Proof. reflexivity. Qed.

Example http_wp_login_session :
  let w :=
    (http_honeypot.handle_client (rt := ascii_runtime.runtime) 8080
       "203.0.113.9" (StreamReader.feed_data samples.wp_login_request)
       ascii_runtime.world0).2 in
  map logger.ev_path (logger.events (log w)) = [Some "/wp-login.php"]
  ∧ map logger.ev_classification (logger.events (log w)) = [Some "scanner"]
  ∧ closed w = true
  ∧ forallb (PyStr.contains "<form>") (written w) = true.
Proof. vm_compute. repeat split. Qed.

Example ssh_three_rounds_transcript :
  written
    (ssh_honeypot.handle_client (rt := ascii_runtime.runtime) 2222
       "203.0.113.9" (StreamReader.feed_data samples.three_logins)
       ascii_runtime.world0).2
  = [ spec_ssh.banner;
      "login as: "; "root@server's password: "; spec_ssh.retry_rejection;
      "login as: "; "admin@server's password: "; spec_ssh.retry_rejection;
      "login as: "; "pi@server's password: "; spec_ssh.final_rejection ].
Proof. vm_compute. reflexivity. Qed.

Example ssh_on_read_only_store :
  let r :=
    ssh_honeypot.handle_client (rt := ascii_runtime.runtime) 2222
      "203.0.113.9" (StreamReader.feed_data samples.three_logins)
      {| written := []; closed := false; log := samples.read_only_store;
         history := ∅; ticks := 0; entropy := [] |} in
  r.1 = Raise OperationalError
  ∧ closed r.2 = false
  ∧ length (logger.events (log r.2)) = 1%nat
  ∧ logger.query_events 10 (log r.2) = [].
Proof. vm_compute. repeat split. Qed.

Example ftp_session_transcript :
  map (λ chunk, substring 0 3 chunk)
    (written
       (ftp_honeypot.handle_client (rt := ascii_runtime.runtime) 2121
          "203.0.113.9" (StreamReader.feed_data samples.ftp_session)
          ascii_runtime.world0).2)
  = ["220"; "331"; "530"; "257"; "150"; "-rw"; "226"; "221"].
Proof. vm_compute. reflexivity. Qed.

(** * Facts about Python text *)

Section text_facts.
Import PyStr.

Lemma truthy_true s : truthy s = true ↔ s ≠ EmptyString.
Proof. destruct s; simpl; split; congruence. Qed.

Lemma truthy_false s : truthy s = false ↔ s = EmptyString.
Proof. destruct s; simpl; split; congruence. Qed.

Lemma truthy_opt_false o : truthy_opt o = false ↔ spec.absent o.
Proof.
  unfold spec.absent. destruct o as [s|]; simpl.
  - rewrite truthy_false. split; [intros ->; auto | intros [?| [= ->]]; done].
  - split; auto.
Qed.

Lemma truthy_opt_true o : truthy_opt o = true ↔ ∃ s, spec.present o s.
Proof.
  unfold spec.present. destruct o as [s|]; simpl.
  - rewrite truthy_true. split; [eauto | intros (? & [= ->] & ?); done].
  - split; [done | intros (? & ? & ?); done].
Qed.

Lemma present_absent o s : spec.present o s → spec.absent o → False.
Proof. intros [-> ?] [?|[= ?]]; done. Qed.

Lemma present_inj o s t : spec.present o s → spec.present o t → s = t.
Proof. intros [-> ?] [[= ?] ?]; done. Qed.

Lemma str_app_cons c a b : String c a +:+ b = String c (a +:+ b).
Proof. reflexivity. Qed.

Lemma str_app_empty_l a : EmptyString +:+ a = a.
Proof. reflexivity. Qed.

Lemma smap_app f a b : smap f (a +:+ b) = smap f a +:+ smap f b.
Proof.
  induction a as [|c a IH]; [done|].
  rewrite str_app_cons. simpl. by rewrite IH, str_app_cons.
Qed.

Lemma lower_app a b : lower (a +:+ b) = lower a +:+ lower b.
Proof. apply smap_app. Qed.

Lemma lower_empty s : lower s = EmptyString ↔ s = EmptyString.
Proof. unfold lower. destruct s; simpl; split; congruence. Qed.

Lemma str_prefix_app pat s :
  String.prefix pat s = true ↔ ∃ post, s = pat +:+ post.
Proof.
  revert s. induction pat as [|c pat IH]; intros s.
  - destruct s; simpl; split; eauto.
  - destruct s as [|d s]; simpl;
      [split; [done | intros [? Hp]; by rewrite str_app_cons in Hp]|].
    destruct (ascii_dec c d) as [->|Hne].
    + rewrite IH. split; intros [post Hp]; exists post;
        rewrite str_app_cons in *; congruence.
    + split; [done | intros [post Hp]]. rewrite str_app_cons in Hp. congruence.
Qed.

(** [pat in s] decides substring containment. *)
Lemma contains_occurs pat s : contains pat s = true ↔ spec.occurs pat s.
Proof.
  unfold spec.occurs. induction s as [|c s IH]; cbn [contains].
  - destruct (String.prefix pat EmptyString) eqn:Hp.
    + apply str_prefix_app in Hp as [post Hp]. split; [|done].
      intros _. exists EmptyString, post. done.
    + split; [done|]. intros (pre & post & Heq).
      destruct pre; [|by rewrite str_app_cons in Heq].
      rewrite str_app_empty_l in Heq.
      assert (String.prefix pat EmptyString = true) as Hq
        by (apply str_prefix_app; eauto).
      congruence.
  - destruct (String.prefix pat (String c s)) eqn:Hp.
    + apply str_prefix_app in Hp as [post Hp]. split; [|done].
      intros _. exists EmptyString, post. done.
    + rewrite IH. split.
      * intros (pre & post & ->). exists (String c pre), post. done.
      * intros (pre & post & Heq). destruct pre as [|d pre].
        -- rewrite str_app_empty_l in Heq.
           assert (String.prefix pat (String c s) = true) as Hq
             by (apply str_prefix_app; eauto).
           congruence.
        -- rewrite str_app_cons in Heq. injection Heq as -> ->. eauto.
Qed.

Lemma contains_false pat s : contains pat s = false ↔ ¬ spec.occurs pat s.
Proof.
  rewrite <- contains_occurs. destruct (contains pat s); split; congruence.
Qed.

Lemma existsb_any_occurs pats s :
  existsb (λ pat, contains pat s) pats = true ↔ spec.any_occurs pats s.
Proof.
  unfold spec.any_occurs. rewrite existsb_exists. split.
  - intros (pat & Hin & Hc). exists pat. split.
    + by apply list_elem_of_In.
    + by apply contains_occurs.
  - intros (pat & Hin & Hc). exists pat. split.
    + by apply list_elem_of_In.
    + by apply contains_occurs.
Qed.

Lemma existsb_not_any_occurs pats s :
  existsb (λ pat, contains pat s) pats = false ↔ ¬ spec.any_occurs pats s.
Proof.
  rewrite <- existsb_any_occurs.
  destruct (existsb _ pats); split; congruence.
Qed.

(** A lower-case pattern survives lower-casing of the text around it. *)
Lemma occurs_lower pat s :
  lower pat = pat → spec.occurs pat s → spec.occurs pat (lower s).
Proof.
  intros Hpat (pre & post & ->).
  exists (lower pre), (lower post). by rewrite !lower_app, Hpat.
Qed.

End text_facts.

(** * Fingerprint Engine *)

Section detect_tool_facts.
Import PyStr fingerprint.

Lemma scan_patterns_existsb ua label pats :
  scan_patterns ua label pats
  = if existsb (λ pat, contains pat ua) pats then Some label else None.
Proof.
  induction pats as [|pat pats IH]; simpl; [done|].
  destruct (contains pat ua); simpl; auto.
Qed.

Lemma scan_signatures_first_match ua table :
  spec.first_match ua table (scan_signatures ua table).
Proof.
  induction table as [|[label pats] table IH]; simpl; [constructor|].
  rewrite scan_patterns_existsb.
  destruct (existsb _ pats) eqn:Hx.
  - apply spec.fm_here. by apply existsb_any_occurs.
  - apply spec.fm_later; [by apply existsb_not_any_occurs | done].
Qed.

Lemma first_match_scan_signatures ua table r :
  spec.first_match ua table r → scan_signatures ua table = r.
Proof.
  induction 1 as [|label pats rest Hany|label pats rest r Hno _ IH]; simpl;
    [done|..]; rewrite scan_patterns_existsb.
  - apply existsb_any_occurs in Hany. by rewrite Hany.
  - apply existsb_not_any_occurs in Hno. by rewrite Hno.
Qed.

Lemma signature_text_header (headers : gmap string string) :
  (if bool_decide (headers ≠ ∅)
   then lower (default EmptyString (headers !! "User-Agent"))
   else EmptyString)
  = lower (default EmptyString (headers !! "User-Agent")).
Proof.
  case_bool_decide as Hne; [done|].
  assert (headers = ∅) as -> by (by destruct (decide (headers = ∅))).
  by rewrite lookup_empty.
Qed.

Lemma signature_text_source headers payload :
  spec.signature_source headers payload (signature_text headers payload).
Proof.
  unfold signature_text. rewrite signature_text_header.
  destruct (headers !! "User-Agent") as [ua|] eqn:Hua; simpl.
  - destruct ua as [|c ua]; simpl.
    + destruct (truthy_opt payload) eqn:Hp.
      * apply truthy_opt_true in Hp as [p [Hp Hne]]. subst payload. simpl.
        apply spec.src_payload; [by right | done].
      * apply spec.src_nothing; [by right | by apply truthy_opt_false].
    + apply (spec.src_user_agent _ _ (String c ua)). done.
  - destruct (truthy_opt payload) eqn:Hp.
    + apply truthy_opt_true in Hp as [p [Hp Hne]]. subst payload. simpl.
      apply spec.src_payload; [by left | done].
    + apply spec.src_nothing; [by left | by apply truthy_opt_false].
Qed.

Lemma signature_source_unique headers payload s t :
  spec.signature_source headers payload s →
  spec.signature_source headers payload t → s = t.
Proof.
  intros Hs Ht.
  destruct Hs as [ua Hua|p Hno Hp|Hno Hp];
    destruct Ht as [ua' Hua'|p' Hno' Hp'|Hno' Hp'];
    try done;
    try (by exfalso; eauto using present_absent).
  - by rewrite (present_inj _ _ _ Hua Hua').
  - by rewrite (present_inj _ _ _ Hp Hp').
Qed.

Lemma path_hint_rule path : spec.path_rule path (path_hint path).
Proof.
  unfold path_hint. destruct path as [p|]; [|apply spec.path_absent; by left].
  destruct (truthy p) eqn:Hp;
    [|apply truthy_false in Hp; subst p; apply spec.path_absent; by right].
  apply truthy_true in Hp.
  assert (spec.present (Some p) p) as Hpres by done.
  destruct (contains "wp-login" (lower p)) eqn:H1; simpl.
  { eapply spec.path_wordpress; [done|]. left. by apply contains_occurs. }
  destruct (contains "wp-admin" (lower p)) eqn:H2; simpl.
  { eapply spec.path_wordpress; [done|]. right. by apply contains_occurs. }
  apply contains_false in H1, H2.
  destruct (contains "phpmyadmin" (lower p)) eqn:H3.
  { eapply spec.path_phpmyadmin; eauto. by apply contains_occurs. }
  apply contains_false in H3.
  destruct (contains "/etc/passwd" (lower p)) eqn:H4.
  { eapply spec.path_passwd; eauto. by apply contains_occurs. }
  apply contains_false in H4.
  eapply spec.path_unknown; [done|].
  intros (pat & Hin & Hocc).
  repeat (apply elem_of_cons in Hin as [->|Hin]; [done|]).
  by apply elem_of_nil in Hin.
Qed.

Lemma path_rule_hint path r : spec.path_rule path r → path_hint path = r.
Proof.
  assert (∀ p pat,
            ¬ spec.any_occurs
                ["wp-login"; "wp-admin"; "phpmyadmin"; "/etc/passwd"] p →
            pat ∈ ["wp-login"; "wp-admin"; "phpmyadmin"; "/etc/passwd"] →
            contains pat p = false) as Hnone.
  { intros p pat Hno Hin. apply contains_false. intros Hocc.
    apply Hno. by exists pat. }
  unfold path_hint.
  intros [p [-> Hp] Hw|p [-> Hp] N1 N2 Hm|p [-> Hp] N1 N2 N3 He
         |p [-> Hp] Hno|[ -> | -> ]];
    try done;
    apply truthy_true in Hp; rewrite Hp.
  - destruct Hw as [Hw|Hw]; apply contains_occurs in Hw; rewrite Hw;
      [done | by rewrite orb_true_r].
  - apply contains_false in N1, N2. apply contains_occurs in Hm.
    by rewrite N1, N2, Hm.
  - apply contains_false in N1, N2, N3. apply contains_occurs in He.
    by rewrite N1, N2, N3, He.
  - rewrite !(Hnone _ _ Hno) by set_solver. done.
Qed.

Lemma payload_hint_rule payload :
  spec.payload_rule payload (payload_hint payload).
Proof.
  unfold payload_hint.
  destruct payload as [p|]; [|apply spec.payload_absent; by left].
  destruct (truthy p) eqn:Hp;
    [|apply truthy_false in Hp; subst p; apply spec.payload_absent; by right].
  apply truthy_true in Hp.
  destruct (existsb _ sql_keywords) eqn:Hx.
  - eapply spec.payload_sql; [done|]. by apply existsb_any_occurs.
  - eapply spec.payload_clean; [done|]. by apply existsb_not_any_occurs.
Qed.

Lemma payload_rule_hint payload r :
  spec.payload_rule payload r → payload_hint payload = r.
Proof.
  unfold payload_hint. change sql_keywords with spec.sql_keyword_set.
  intros [p [-> Hp] Hs|p [-> Hp] Hs|[ -> | -> ]]; try done;
    apply truthy_true in Hp; rewrite Hp.
  - apply existsb_any_occurs in Hs. by rewrite Hs.
  - apply existsb_not_any_occurs in Hs. by rewrite Hs.
Qed.

Lemma detect_tool_unfold headers payload path request_type :
  detect_tool headers payload path request_type
  = match scan_signatures (signature_text headers payload) scanner_signatures with
    | Some label => Some label
    | None =>
        match path_hint path with
        | Some label => Some label
        | None => payload_hint payload
        end
    end.
Proof. reflexivity. Qed.

Lemma detect_tool_sound headers payload path request_type :
  spec.detect_tool_spec headers payload path
    (detect_tool headers payload path request_type).
Proof.
  rewrite detect_tool_unfold.
  pose proof (signature_text_source headers payload) as Hsrc.
  pose proof (scan_signatures_first_match
                (signature_text headers payload) scanner_signatures) as Hfm.
  destruct (scan_signatures _ _) as [label|].
  { eapply spec.by_signature; eauto. }
  pose proof (path_hint_rule path) as Hpath.
  destruct (path_hint path) as [label|].
  { eapply spec.by_path; eauto. }
  eapply spec.by_payload; eauto using payload_hint_rule.
Qed.

Lemma detect_tool_complete headers payload path request_type r :
  spec.detect_tool_spec headers payload path r →
  detect_tool headers payload path request_type = r.
Proof.
  rewrite detect_tool_unfold.
  intros [s l Hs Hf|s l Hs Hf Hp|s r' Hs Hf Hp Hb];
    rewrite (signature_source_unique _ _ _ _
               (signature_text_source headers payload) Hs);
    apply first_match_scan_signatures in Hf;
    change scanner_signatures with spec.signature_table; rewrite Hf;
    [done|..]; apply path_rule_hint in Hp; rewrite Hp; [done|].
  by apply payload_rule_hint.
Qed.

End detect_tool_facts.

(** C4.  [detect_tool] computes exactly what the five steps of the
    specification prescribe (signature table on the User-Agent, else on
    the payload; then the known paths; then the SQL keywords; else
    nothing), case-insensitively and with the first match winning; and a
    User-Agent that contains "sqlmap" is always labelled "sqlmap". *)
Theorem detect_tool_precedence :
  (∀ headers payload path request_type r,
     fingerprint.detect_tool headers payload path request_type = r
     ↔ spec.detect_tool_spec headers payload path r)
  ∧ (∀ (headers : gmap string string) payload path request_type ua,
       headers !! "User-Agent" = Some ua →
       spec.occurs "sqlmap" ua →
       fingerprint.detect_tool headers payload path request_type
       = Some "sqlmap").
Proof.
  split.
  - intros headers payload path request_type r. split.
    + intros <-. apply detect_tool_sound.
    + apply detect_tool_complete.
  - intros headers payload path request_type ua Hua Hocc.
    assert (ua ≠ EmptyString) as Hne.
    { intros ->. destruct Hocc as (pre & post & Heq).
      destruct pre; [|by rewrite str_app_cons in Heq].
      by rewrite str_app_empty_l, str_app_cons in Heq. }
    apply detect_tool_complete.
    eapply spec.by_signature.
    + apply (spec.src_user_agent _ _ ua). done.
    + apply spec.fm_here. exists "sqlmap". split; [set_solver|].
      by apply occurs_lower.
Qed.

Lemma detect_tool_precedence_witness :
  fingerprint.detect_tool
    {[ "User-Agent" := "sqlmap/1.7.2#stable (https://sqlmap.org)";
       "Host" := "shop.example" ]}
    (Some "id=1") (Some "/item") "GET"
  = Some "sqlmap".
Proof.
  apply (proj2 detect_tool_precedence _ _ _ _
           "sqlmap/1.7.2#stable (https://sqlmap.org)").
  - reflexivity.
  - exists EmptyString, "/1.7.2#stable (https://sqlmap.org)". reflexivity.
Defined.

(** * Classification Engine *)

Section classify_facts.
Import fingerprint spec_classify.
Context {rt : Runtime}.

Lemma last5_app {A} (older recent : list A) :
  length recent = 5%nat → last5 (older ++ recent) = recent.
Proof.
  intros Hlen. unfold last5. rewrite length_app, Hlen.
  replace (length older + 5 - 5)%nat with (length older) by lia.
  by rewrite drop_app_length.
Qed.

Lemma last5_split {A} (history : list A) :
  (5 ≤ length history)%nat →
  ∃ older recent, history = older ++ recent ∧ length recent = 5%nat.
Proof.
  intros Hlen. exists (take (length history - 5) history), (last5 history).
  split; [symmetry; apply take_drop|].
  unfold last5. rewrite length_drop. lia.
Qed.

Lemma mapM_parsed entries times :
  mapM fromisoformat (map timestamp entries) = Some times
  ↔ parsed entries times.
Proof.
  unfold parsed. rewrite mapM_Some. apply Forall2_fmap_l.
Qed.

Lemma mapM_parse_failure entries e :
  e ∈ entries → fromisoformat (timestamp e) = None →
  mapM fromisoformat (map timestamp entries) = None.
Proof.
  intros Hin Hnone.
  destruct (mapM _ _) as [times|] eqn:Hm; [|done].
  assert (is_Some (mapM fromisoformat (map timestamp entries))) as Hs
    by (rewrite Hm; eauto).
  apply mapM_is_Some in Hs. rewrite Forall_fmap, Forall_forall in Hs.
  destruct (Hs e Hin) as [t Ht]. simpl in Ht. congruence.
Qed.

(** [max] and [min] over instants of one kind. *)
Lemma best_go_max cur rest :
  Forall (λ t, dt_aware t = dt_aware cur) rest →
  ∃ hi, best_go dt_gt cur rest = Some hi
        ∧ hi ∈ cur :: rest
        ∧ dt_aware hi = dt_aware cur
        ∧ ∀ t, t ∈ cur :: rest → dt_us t ≤ dt_us hi.
Proof.
  revert cur. induction rest as [|x rest IH]; intros cur Hall; simpl.
  - exists cur. split_and!; [done|by left|done|].
    intros t Ht. apply list_elem_of_singleton in Ht as ->. lia.
  - apply Forall_cons in Hall as [Hx Hall]. unfold dt_gt at 1.
    rewrite Hx, eqb_reflx.
    destruct (dt_us cur <? dt_us x) eqn:Hlt.
    + destruct (IH x) as (hi & Hgo & Hin & Haw & Hmax).
      { eapply Forall_impl; [exact Hall|]. simpl. congruence. }
      exists hi. split_and!; [done|by right|congruence|].
      intros t Ht. apply Z.ltb_lt in Hlt.
      apply elem_of_cons in Ht as [->|Ht]; [|by apply Hmax].
      assert (dt_us x ≤ dt_us hi) by (apply Hmax; left). lia.
    + destruct (IH cur Hall) as (hi & Hgo & Hin & Haw & Hmax).
      exists hi. split_and!;
        [done|apply elem_of_cons in Hin as [->|Hin]; [by left|by do 2 right]|done|].
      intros t Ht. apply Z.ltb_ge in Hlt.
      apply elem_of_cons in Ht as [->|Ht]; [apply Hmax; by left|].
      apply elem_of_cons in Ht as [->|Ht]; [|apply Hmax; by right].
      assert (dt_us cur ≤ dt_us hi) by (apply Hmax; left). lia.
Qed.

Lemma best_go_min cur rest :
  Forall (λ t, dt_aware t = dt_aware cur) rest →
  ∃ lo, best_go dt_lt cur rest = Some lo
        ∧ lo ∈ cur :: rest
        ∧ dt_aware lo = dt_aware cur
        ∧ ∀ t, t ∈ cur :: rest → dt_us lo ≤ dt_us t.
Proof.
  revert cur. induction rest as [|x rest IH]; intros cur Hall; simpl.
  - exists cur. split_and!; [done|by left|done|].
    intros t Ht. apply list_elem_of_singleton in Ht as ->. lia.
  - apply Forall_cons in Hall as [Hx Hall]. unfold dt_lt at 1.
    rewrite Hx, eqb_reflx.
    destruct (dt_us x <? dt_us cur) eqn:Hlt.
    + destruct (IH x) as (lo & Hgo & Hin & Haw & Hmin).
      { eapply Forall_impl; [exact Hall|]. simpl. congruence. }
      exists lo. split_and!; [done|by right|congruence|].
      intros t Ht. apply Z.ltb_lt in Hlt.
      apply elem_of_cons in Ht as [->|Ht]; [|by apply Hmin].
      assert (dt_us lo ≤ dt_us x) by (apply Hmin; left). lia.
    + destruct (IH cur Hall) as (lo & Hgo & Hin & Haw & Hmin).
      exists lo. split_and!;
        [done|apply elem_of_cons in Hin as [->|Hin]; [by left|by do 2 right]|done|].
      intros t Ht. apply Z.ltb_ge in Hlt.
      apply elem_of_cons in Ht as [->|Ht]; [apply Hmin; by left|].
      apply elem_of_cons in Ht as [->|Ht]; [|apply Hmin; by right].
      assert (dt_us lo ≤ dt_us cur) by (apply Hmin; left). lia.
Qed.

(** A comparison between an aware and a naive instant raises, whatever
    is being searched. *)
Lemma best_go_mixed better cur rest :
  (∀ a b, dt_aware a ≠ dt_aware b → better a b = None) →
  (∀ a b, dt_aware a = dt_aware b → is_Some (better a b)) →
  Exists (λ t, dt_aware t ≠ dt_aware cur) rest →
  best_go better cur rest = None.
Proof.
  intros Hmixed Hsame. revert cur.
  induction rest as [|x rest IH]; intros cur Hex; simpl.
  - by apply Exists_nil in Hex.
  - destruct (decide (dt_aware x = dt_aware cur)) as [Heq|Hne].
    + apply Exists_cons in Hex as [Hx|Hex]; [done|].
      destruct (Hsame x cur Heq) as [[|] ->]; apply IH; [|done].
      eapply Exists_impl; [exact Hex|]. simpl. congruence.
    + by rewrite Hmixed.
Qed.

Lemma comparable_cons cur rest :
  comparable (cur :: rest) → Forall (λ t, dt_aware t = dt_aware cur) rest.
Proof.
  intros Hc. apply Forall_forall. intros t Ht. apply Hc; [by right | by left].
Qed.

Lemma not_comparable_cons cur rest :
  ¬ comparable (cur :: rest) → Exists (λ t, dt_aware t ≠ dt_aware cur) rest.
Proof.
  intros Hn.
  destruct (decide (Exists (λ t, dt_aware t ≠ dt_aware cur) rest))
    as [|Hno]; [done|].
  exfalso. apply Hn. apply not_Exists_Forall in Hno; [|solve_decision].
  rewrite Forall_forall in Hno.
  assert (∀ t, t ∈ cur :: rest → dt_aware t = dt_aware cur) as Hall.
  { intros t [->|Ht]%elem_of_cons; [done|].
    specialize (Hno t Ht). simpl in Hno.
    destruct (decide (dt_aware t = dt_aware cur)); [done|]. by exfalso. }
  intros a b Ha Hb. by rewrite (Hall a Ha), (Hall b Hb).
Qed.

(** [rapid] on timestamps that all parse, to instants of one kind. *)
Lemma rapid_comparable entries times :
  parsed entries times → times ≠ [] → comparable times →
  ∃ hi lo, hi ∈ times ∧ lo ∈ times
           ∧ (∀ t, t ∈ times → dt_us lo ≤ dt_us t ≤ dt_us hi)
           ∧ rapid (map timestamp entries)
             = Some (dt_us hi - dt_us lo <? 2000000).
Proof.
  intros Hp Hne Hc. apply mapM_parsed in Hp. unfold rapid. rewrite Hp. simpl.
  destruct times as [|cur rest]; [done|]. simpl.
  pose proof (comparable_cons _ _ Hc) as Hall.
  destruct (best_go_max cur rest Hall) as (hi & -> & Hhi & Hah & Hmax).
  destruct (best_go_min cur rest Hall) as (lo & -> & Hlo & Hal & Hmin).
  simpl. unfold dt_sub. rewrite Hah, Hal, eqb_reflx. simpl.
  exists hi, lo. split_and!; auto.
Qed.

Lemma rapid_mixed entries times :
  parsed entries times → ¬ comparable times →
  rapid (map timestamp entries) = None.
Proof.
  intros Hp Hn. apply mapM_parsed in Hp. unfold rapid. rewrite Hp. simpl.
  destruct times as [|cur rest].
  { exfalso. apply Hn. intros a b Ha. by apply elem_of_nil in Ha. }
  simpl. rewrite (best_go_mixed dt_gt); [done|..].
  - intros a b Hab. unfold dt_gt.
    destruct (Bool.eqb _ _) eqn:He; [|done]. by apply eqb_prop in He.
  - intros a b Hab. unfold dt_gt. rewrite Hab, eqb_reflx. eauto.
  - by apply not_comparable_cons.
Qed.

Lemma classify_no_tool history tool :
  no_tool tool →
  classify_client history tool
  = if (5 <=? length history)%nat
    then match rapid (map timestamp (last5 history)) with
         | Some true => ("bot", history)
         | _ => ("human", history)
         end
    else ("human", history).
Proof.
  intros Hno. apply truthy_opt_false in Hno.
  unfold classify_client. rewrite Hno.
  destruct (5 <=? length history)%nat; [|done].
  by destruct (rapid _) as [[|]|].
Qed.

Lemma classify_recent older recent tool :
  no_tool tool → length recent = 5%nat →
  (classify_client (older ++ recent) tool).1
  = match rapid (map timestamp recent) with
    | Some true => "bot"
    | _ => "human"
    end.
Proof.
  intros Hno Hlen. rewrite classify_no_tool by done.
  rewrite last5_app by done.
  replace (5 <=? length (older ++ recent))%nat with true
    by (symmetry; apply Nat.leb_le; rewrite length_app; lia).
  by destruct (rapid _) as [[|]|].
Qed.

Lemma comparable_Forall times :
  Forall (λ a, Forall (λ b, dt_aware a = dt_aware b) times) times →
  comparable times.
Proof.
  rewrite Forall_forall. intros Hall a b Ha Hb.
  specialize (Hall a Ha). rewrite Forall_forall in Hall. by apply Hall.
Qed.

Lemma span_below_Forall bound times :
  Forall (λ a, Forall (λ b, dt_us a - dt_us b < bound) times) times →
  span_below bound times.
Proof.
  rewrite Forall_forall. intros Hall a b Ha Hb.
  specialize (Hall a Ha). rewrite Forall_forall in Hall. by apply Hall.
Qed.

(** The call leaves the list it was given as it found it. *)
Lemma classify_client_frame history tool :
  (classify_client history tool).2 = history.
Proof.
  unfold classify_client.
  destruct (PyStr.truthy_opt tool); [done|].
  destruct (5 <=? length history)%nat; [|done].
  by destruct (rapid _) as [[|]|].
Qed.

End classify_facts.

(** C3.  [classify_client] applies its rules in order: a non-empty
    detected tool gives "scanner" whatever the history; otherwise a
    history of at least five entries whose last five timestamps span
    less than two seconds gives "bot"; otherwise the result is "human",
    in particular when the span is two seconds or more, when one of the
    last five timestamps does not parse (or they cannot be compared), and
    when the history has fewer than five entries. *)
Theorem classify_client_rules {rt : Runtime} :
  (∀ history tool,
     tool ≠ EmptyString →
     (fingerprint.classify_client history (Some tool)).1 = "scanner")
  ∧ (∀ older recent times tool,
       spec_classify.no_tool tool → length recent = 5%nat →
       spec_classify.parsed recent times →
       spec_classify.comparable times →
       spec_classify.span_below 2000000 times →
       (fingerprint.classify_client (older ++ recent) tool).1 = "bot")
  ∧ (∀ older recent times tool,
       spec_classify.no_tool tool → length recent = 5%nat →
       spec_classify.parsed recent times →
       spec_classify.comparable times →
       ¬ spec_classify.span_below 2000000 times →
       (fingerprint.classify_client (older ++ recent) tool).1 = "human")
  ∧ (∀ older recent tool e,
       spec_classify.no_tool tool → length recent = 5%nat →
       e ∈ recent → fromisoformat (fingerprint.timestamp e) = None →
       (fingerprint.classify_client (older ++ recent) tool).1 = "human")
  ∧ (∀ older recent times tool,
       spec_classify.no_tool tool → length recent = 5%nat →
       spec_classify.parsed recent times →
       ¬ spec_classify.comparable times →
       (fingerprint.classify_client (older ++ recent) tool).1 = "human")
  ∧ (∀ history tool,
       spec_classify.no_tool tool → (length history < 5)%nat →
       (fingerprint.classify_client history tool).1 = "human").
Proof.
  split_and!.
  - intros history tool Hne. unfold fingerprint.classify_client. simpl.
    apply truthy_true in Hne. by rewrite Hne.
  - intros older recent times tool Hno Hlen Hp Hc Hspan.
    rewrite classify_recent by done.
    assert (times ≠ []) as Hne.
    { intros ->. apply Forall2_length in Hp. simpl in Hp. lia. }
    destruct (rapid_comparable _ _ Hp Hne Hc) as (hi & lo & Hhi & Hlo & _ & ->).
    specialize (Hspan hi lo Hhi Hlo).
    apply Z.ltb_lt in Hspan. by rewrite Hspan.
  - intros older recent times tool Hno Hlen Hp Hc Hspan.
    rewrite classify_recent by done.
    assert (times ≠ []) as Hne.
    { intros ->. apply Forall2_length in Hp. simpl in Hp. lia. }
    destruct (rapid_comparable _ _ Hp Hne Hc) as (hi & lo & Hhi & Hlo & Hb & ->).
    destruct (dt_us hi - dt_us lo <? 2000000) eqn:Hlt; [|done].
    exfalso. apply Hspan. intros a b Ha Hb'. apply Z.ltb_lt in Hlt.
    pose proof (Hb a Ha). pose proof (Hb b Hb'). lia.
  - intros older recent tool e Hno Hlen Hin Hfail.
    rewrite classify_recent by done.
    unfold fingerprint.rapid. by rewrite (mapM_parse_failure _ _ Hin Hfail).
  - intros older recent times tool Hno Hlen Hp Hn.
    rewrite classify_recent by done.
    by rewrite (rapid_mixed _ _ Hp Hn).
  - intros history tool Hno Hlen.
    rewrite classify_no_tool by done.
    replace (5 <=? length history)%nat with false
      by (symmetry; apply Nat.leb_gt; lia).
    done.
Qed.

Lemma classify_client_rules_witness :
  (fingerprint.classify_client (rt := ascii_runtime.runtime)
     ([ {| fingerprint.timestamp := "2024-03-01T11:59:00.000000" |} ]
      ++ [ {| fingerprint.timestamp := "2024-03-01T12:00:00.100000" |};
           {| fingerprint.timestamp := "2024-03-01T12:00:00.400000" |};
           {| fingerprint.timestamp := "2024-03-01T12:00:01" |};
           {| fingerprint.timestamp := "2024-03-01T12:00:01.500000" |};
           {| fingerprint.timestamp := "2024-03-01T12:00:02.099999" |} ])
     None).1 = "bot".
Proof.
  apply (proj1 (proj2 (classify_client_rules (rt := ascii_runtime.runtime)))
           _ _
           [ {| dt_aware := false; dt_us := 1709294400100000 |};
             {| dt_aware := false; dt_us := 1709294400400000 |};
             {| dt_aware := false; dt_us := 1709294401000000 |};
             {| dt_aware := false; dt_us := 1709294401500000 |};
             {| dt_aware := false; dt_us := 1709294402099999 |} ]).
  - by left.
  - reflexivity.
  - repeat constructor.
  - apply comparable_Forall. repeat constructor.
  - apply span_below_Forall. repeat constructor; simpl; lia.
Defined.

(** * Event Store *)

Section json_facts.
Import logger.

Lemma json_roundtrip_native v :
  json_native v → json_loads (json_dumps v) = v.
Proof.
  revert v. fix IH 2. intros v [| | | |xs Hxs|m Hm]; simpl; try done.
  - f_equal. induction Hxs as [|x xs Hx Hxs IHxs]; simpl; [done|].
    by rewrite (IH x Hx), IHxs.
  - f_equal. apply map_eq. intros k. rewrite !lookup_fmap.
    destruct (m !! k) as [w|] eqn:Hk; simpl; [|done].
    by rewrite (IH w (Hm k w Hk)).
Qed.

Lemma json_roundtrip_headers (h : gmap string string) :
  json_loads (json_dumps (py_of_headers h)) = py_of_headers h.
Proof.
  apply json_roundtrip_native. constructor. intros k v.
  rewrite lookup_fmap. destruct (h !! k); simpl; [|done].
  intros [= <-]. constructor.
Qed.

End json_facts.

Section store_facts.
Import logger spec_store.

Lemma max_rowid_le rs bound :
  0 ≤ bound → Forall (λ r, row_id r ≤ bound) rs → max_rowid rs ≤ bound.
Proof.
  intros Hb. induction 1 as [|r rs Hr _ IH]; simpl; lia.
Qed.

Lemma next_id_wf db : wf_db db → next_id db = seq db + 1.
Proof.
  intros (_ & Hle & Hpos). unfold next_id.
  pose proof (max_rowid_le _ _ Hpos Hle). lia.
Qed.

Lemma log_event_offline timestamp a self :
  writable (conn self) = false →
  log_event timestamp a self
  = (Raise OperationalError,
     {| events := events self ++ [make_event timestamp a];
        conn := conn self |}).
Proof.
  intros Hw. unfold log_event, insert. simpl. by rewrite Hw.
Qed.

Lemma log_event_online timestamp a self :
  writable (conn self) = true →
  log_event timestamp a self
  = (Ok (),
     {| events := events self ++ [make_event timestamp a];
        conn :=
          {| rows := rows (conn self)
                     ++ [make_row (make_event timestamp a) a
                           (next_id (conn self))];
             seq := next_id (conn self);
             writable := true |} |}).
Proof.
  intros Hw. unfold log_event, insert. simpl. by rewrite Hw.
Qed.

Lemma wf_db_append db b row :
  wf_db db → row_id row = seq db + 1 →
  wf_db {| rows := rows db ++ [row]; seq := seq db + 1; writable := b |}.
Proof.
  intros (Hs & Hle & Hpos) Hid. split_and!; simpl; [| |lia].
  - apply StronglySorted_app. split_and!; [|done|repeat constructor].
    intros x y Hx Hy. apply list_elem_of_singleton in Hy as ->.
    rewrite Forall_forall in Hle. specialize (Hle x Hx). lia.
  - apply Forall_app. split.
    + eapply Forall_impl; [exact Hle|]. simpl. lia.
    + repeat constructor. lia.
Qed.

Lemma wf_db_writable db b :
  wf_db db → wf_db {| rows := rows db; seq := seq db; writable := b |}.
Proof. done. Qed.

Lemma step_failed self c :
  writable_now c = false →
  step self c
  = {| events := events self ++ [make_event (call_time c) (call_args c)];
       conn := {| rows := rows (conn self); seq := seq (conn self);
                  writable := false |} |}.
Proof.
  intros Hw. unfold step. rewrite log_event_offline; simpl; [|done].
  by rewrite Hw.
Qed.

Lemma step_succeeded self c :
  writable_now c = true → wf_db (conn self) →
  step self c
  = {| events := events self ++ [make_event (call_time c) (call_args c)];
       conn :=
         {| rows := rows (conn self)
                    ++ [make_row (make_event (call_time c) (call_args c))
                          (call_args c) (seq (conn self) + 1)];
            seq := seq (conn self) + 1;
            writable := true |} |}.
Proof.
  intros Hw Hwf. unfold step. rewrite log_event_online; simpl; [|done].
  by rewrite (next_id_wf _ (wf_db_writable _ (writable_now c) Hwf)).
Qed.

Lemma rows_from_cons base c calls :
  rows_from base (c :: calls)
  = make_row (make_event (call_time c) (call_args c)) (call_args c) (base + 1)
    :: rows_from (base + 1) calls.
Proof.
  unfold rows_from. rewrite imap_cons. f_equal; [f_equal; lia|].
  apply imap_ext. intros i x _. simpl. f_equal. lia.
Qed.

Lemma run_state calls self :
  wf_db (conn self) →
  events (run calls self)
  = events self ++ map (λ c, make_event (call_time c) (call_args c)) calls
  ∧ rows (conn (run calls self))
    = rows (conn self) ++ rows_from (seq (conn self)) (succeeded calls)
  ∧ seq (conn (run calls self))
    = seq (conn self) + Z.of_nat (length (succeeded calls))
  ∧ wf_db (conn (run calls self)).
Proof.
  revert self. induction calls as [|c calls IH]; intros self Hwf.
  - simpl. rewrite !app_nil_r. split_and!; [done|done|lia|done].
  - unfold run. simpl. fold (run calls (step self c)).
    unfold succeeded. rewrite filter_cons.
    destruct (writable_now c) eqn:Hw.
    + rewrite decide_True by done. fold (succeeded calls).
      rewrite step_succeeded by done.
      match goal with
      | |- context [run calls ?s] =>
          destruct (IH s) as (He & Hr & Hs & Hwf')
      end.
      { simpl. by apply wf_db_append. }
      simpl in *. rewrite He, Hr, Hs, rows_from_cons.
      rewrite <- !app_assoc. simpl. split_and!; [done|done|lia|done].
    + rewrite decide_False by done. fold (succeeded calls).
      rewrite step_failed by done.
      match goal with
      | |- context [run calls ?s] =>
          destruct (IH s) as (He & Hr & Hs & Hwf')
      end.
      { simpl. by apply (wf_db_writable _ false). }
      simpl in *. rewrite He, Hr, Hs.
      rewrite <- !app_assoc. simpl. split_and!; [done|done|lia|done].
Qed.

Lemma insert_desc_last r sorted :
  Forall (λ x, row_id r < row_id x) sorted →
  insert_desc r sorted = sorted ++ [r].
Proof.
  induction 1 as [|x sorted Hx _ IH]; simpl; [done|].
  replace (row_id x <? row_id r) with false
    by (symmetry; apply Z.ltb_ge; lia).
  by rewrite IH.
Qed.

(** On ids that ascend in insertion order, [ORDER BY id DESC] lists the
    rows newest first. *)
Lemma order_by_id_desc_rev rs :
  StronglySorted (λ a b, row_id a < row_id b) rs →
  order_by_id_desc rs = rev rs.
Proof.
  induction 1 as [|r rs _ IH Hr]; simpl; [done|].
  fold (order_by_id_desc rs). rewrite IH.
  apply insert_desc_last. by apply Forall_rev.
Qed.

Lemma sql_limit_all {A} limit (l : list A) :
  limit < 0 ∨ Z.of_nat (length l) ≤ limit → sql_limit limit l = l.
Proof.
  intros Hl. unfold sql_limit.
  destruct (limit <? 0) eqn:Hneg; [done|].
  apply Z.ltb_ge in Hneg. apply take_ge. lia.
Qed.

Lemma fetched_of_made_row id timestamp a :
  fetched_of_row (make_row (make_event timestamp a) a id)
  = stored id timestamp a.
Proof.
  unfold fetched_of_row, stored.
  f_equal; try done. apply json_roundtrip_headers.
Qed.

Lemma fetched_rows_from base calls :
  map fetched_of_row (rows_from base calls) = stored_from base calls.
Proof.
  unfold rows_from, stored_from. rewrite fmap_imap.
  apply imap_ext. intros i c _. apply fetched_of_made_row.
Qed.

Lemma query_events_all limit self :
  wf_db (conn self) →
  limit < 0 ∨ Z.of_nat (length (rows (conn self))) ≤ limit →
  query_events limit self = rev (map fetched_of_row (rows (conn self))).
Proof.
  intros (Hs & _) Hl. unfold query_events.
  rewrite order_by_id_desc_rev by done.
  rewrite sql_limit_all by (by rewrite length_rev).
  by rewrite map_rev.
Qed.

End store_facts.

Section store_queries.
Import logger spec_store.

Lemma succeeded_all calls :
  Forall (λ c, writable_now c = true) calls → succeeded calls = calls.
Proof.
  unfold succeeded. induction 1 as [|c calls Hc _ IH]; [done|].
  by rewrite filter_cons, decide_True, IH.
Qed.

Lemma length_rows_from base calls :
  length (rows_from base calls) = length calls.
Proof. unfold rows_from. apply length_imap. Qed.

(** What a query with a sufficient limit returns after [calls]. *)
Lemma query_after_run calls self limit :
  wf_db (conn self) →
  limit < 0
  ∨ Z.of_nat (length (rows (conn self)) + length (succeeded calls)) ≤ limit →
  query_events limit (run calls self)
  = rev (stored_from (seq (conn self)) (succeeded calls))
    ++ query_events limit self.
Proof.
  intros Hwf Hl.
  destruct (run_state calls self Hwf) as (_ & Hr & _ & Hwf').
  rewrite !query_events_all; try done.
  - rewrite Hr, map_app, rev_app_distr. by rewrite fetched_rows_from.
  - destruct Hl as [?|Hl]; [by left|right]. lia.
  - destruct Hl as [?|Hl]; [by left|right].
    by rewrite Hr, length_app, length_rows_from.
Qed.

Lemma query_ids_bounded limit self :
  wf_db (conn self) →
  Forall (λ f, f_id f ≤ seq (conn self)) (query_events limit self).
Proof.
  intros (Hs & Hle & _). unfold query_events.
  rewrite order_by_id_desc_rev by done.
  apply Forall_fmap. unfold sql_limit.
  destruct (limit <? 0); [|apply Forall_take]; by apply Forall_rev.
Qed.

Lemma stored_from_lookup base calls i f :
  stored_from base calls !! i = Some f → f_id f = base + 1 + Z.of_nat i.
Proof.
  unfold stored_from. rewrite list_lookup_imap.
  destruct (calls !! i); simpl; [|done]. by intros [= <-].
Qed.

Lemma query_events_descending limit self :
  wf_db (conn self) →
  StronglySorted (λ a b, f_id b < f_id a) (query_events limit self).
Proof.
  intros (Hs & _). unfold query_events.
  rewrite order_by_id_desc_rev by done.
  apply (StronglySorted_fmap _ (λ a b, row_id b < row_id a)); [done|].
  assert (StronglySorted (λ a b, row_id b < row_id a)
            (rev (rows (conn self)))) as Hrev.
  { clear -Hs. induction Hs as [|r rs _ IH Hr]; simpl; [constructor|].
    apply StronglySorted_app. split_and!; [|done|repeat constructor].
    intros x y Hx Hy. apply list_elem_of_singleton in Hy as ->.
    rewrite Forall_forall in Hr. apply Hr.
    apply list_elem_of_In, in_rev. by apply list_elem_of_In. }
  unfold sql_limit. destruct (limit <? 0); [done|].
  rewrite <- (take_drop (Z.to_nat limit) (rev _)) in Hrev.
  by apply StronglySorted_app in Hrev as (_ & ? & _).
Qed.

Lemma query_events_prefix limit self :
  query_events limit self `prefix_of` query_events (-1) self.
Proof.
  unfold query_events, sql_limit. simpl.
  destruct (limit <? 0); [done|].
  rewrite <- (take_drop (Z.to_nat limit) (order_by_id_desc _)) at 2.
  rewrite fmap_app. by apply prefix_app_r.
Qed.

Lemma query_events_length limit self :
  0 ≤ limit → Z.of_nat (length (query_events limit self)) ≤ limit.
Proof.
  intros Hl. unfold query_events, sql_limit.
  replace (limit <? 0) with false by (symmetry; apply Z.ltb_ge; lia).
  rewrite length_fmap, length_take. lia.
Qed.

End store_queries.




(** C2.  Every event appended comes back from [query_events] with a
    sufficient limit, all fields as appended: the headers equal to the
    headers given, the meta map after its trip through JSON, which is
    the map itself when it holds JSON values.  Ids strictly increase in
    append order, whatever the timestamps, and exceed every id already
    in the table; a query lists the most recent rows, newest first, by
    strictly descending id. *)
Theorem appended_events_are_returned :
  (∀ calls self limit,
     spec_store.wf_db (logger.conn self) →
     Forall (λ c, spec_store.writable_now c = true) calls →
     limit < 0
     ∨ Z.of_nat (length (logger.rows (logger.conn self)) + length calls)
       ≤ limit →
     logger.query_events limit (spec_store.run calls self)
     = rev (spec_store.stored_from (logger.seq (logger.conn self)) calls)
       ++ logger.query_events limit self
     ∧ Forall (λ f, logger.f_id f ≤ logger.seq (logger.conn self))
         (logger.query_events limit self))
  ∧ (∀ id timestamp a,
       logger.f_headers (spec_store.stored id timestamp a)
       = logger.py_of_headers (default ∅ (logger.headers a))
       ∧ (logger.json_native (logger.PDict (default ∅ (logger.meta a))) →
          logger.f_meta (spec_store.stored id timestamp a)
          = logger.PDict (default ∅ (logger.meta a))))
  ∧ (∀ base calls (i j : nat) fi fj,
       spec_store.stored_from base calls !! i = Some fi →
       spec_store.stored_from base calls !! j = Some fj →
       (i < j)%nat → logger.f_id fi < logger.f_id fj)
  ∧ (∀ self limit,
       spec_store.wf_db (logger.conn self) →
       StronglySorted (λ a b, logger.f_id b < logger.f_id a)
         (logger.query_events limit self)
       ∧ logger.query_events limit self
         `prefix_of` logger.query_events (-1) self
       ∧ (0 ≤ limit →
          Z.of_nat (length (logger.query_events limit self)) ≤ limit)).
Proof.
  split_and!.
  - intros calls self limit Hwf Hok Hl. split.
    + rewrite <- (succeeded_all calls Hok) at 2.
      apply query_after_run; [done|]. by rewrite succeeded_all.
    + by apply query_ids_bounded.
  - intros id timestamp a. split; [done|].
    intros Hn. simpl. by apply (json_roundtrip_native (logger.PDict _)).
  - intros base calls i j fi fj Hi Hj Hlt.
    apply stored_from_lookup in Hi, Hj. lia.
  - intros self limit Hwf. split_and!.
    + by apply query_events_descending.
    + apply query_events_prefix.
    + apply query_events_length.
Qed.

Lemma appended_events_are_returned_witness :
  logger.query_events 10
    (spec_store.run samples.two_logins_same_instant logger.init)
  = [ spec_store.stored 2 samples.midnight (samples.login "admin");
      spec_store.stored 1 samples.midnight (samples.login "root") ].
Proof.
  destruct (proj1 appended_events_are_returned
              samples.two_logins_same_instant logger.init 10)
    as [Hq _].
  - split_and!; simpl; [constructor|constructor|lia].
  - repeat constructor.
  - right. simpl. lia.
  - rewrite Hq. reflexivity.
Defined.

(** * HTTP handler *)

Section http_facts.
Import PyStr http_honeypot.
Context {rt : Runtime}.

Lemma generate_response_body_effect path detected_tool w :
  ∃ body e,
    _generate_response_body path detected_tool w
    = (Ok body,
       {| written := written w; closed := closed w; log := log w;
          history := history w; ticks := ticks w; entropy := e |}).
Proof.
  unfold _generate_response_body, io.choice, mbind, M_bind, mret, M_ret.
  repeat match goal with
         | |- context [if ?b then _ else _] => destruct b
         end;
    try (eexists _, (entropy w); destruct w; reflexivity).
  eexists _, (tl (entropy w)). reflexivity.
Qed.

Lemma send_response_effect body request_headers w :
  ∃ response e,
    _send_response body request_headers w
    = (Ok (),
       {| written := written w ++ [response]; closed := true; log := log w;
          history := history w; ticks := ticks w; entropy := e |}).
Proof.
  unfold _send_response, _random_server_header, io.choice, io.write,
    io.drain, io.close, mbind, M_bind, mret, M_ret.
  cbn beta iota zeta. eexists _, _. reflexivity.
Qed.

End http_facts.

Section http_handler_facts.
Import PyStr http_honeypot.
Context {rt : Runtime}.

Lemma handle_client_unparsed port client_ip reader w :
  _read_http_request reader = None →
  handle_client port client_ip reader w
  = (Ok (),
     {| written := written w; closed := true; log := log w;
        history := history w; ticks := ticks w; entropy := entropy w |}).
Proof.
  intros Hp. unfold handle_client, try_except. by rewrite Hp.
Qed.

Lemma classify_client_pair hist tool :
  fingerprint.classify_client hist tool
  = ((fingerprint.classify_client hist tool).1, hist).
Proof.
  rewrite <- (classify_client_frame hist tool) at 3.
  by destruct (fingerprint.classify_client hist tool).
Qed.

Lemma handle_client_parsed port client_ip reader w method path headers body :
  _read_http_request reader = Some (method, path, headers, body) →
  let tool := fingerprint.detect_tool headers body (Some path) method in
  let hist :=
    default [] (history w !! client_ip)
    ++ [ {| fingerprint.timestamp := utcnow_isoformat (ticks w) |} ] in
  let cls := (fingerprint.classify_client hist tool).1 in
  let r :=
    logger.log_event (utcnow_isoformat (S (ticks w)))
      (http_event port client_ip method path headers body tool cls)
      (log w) in
  ∃ out e,
    handle_client port client_ip reader w
    = (Ok (),
       {| written := written w ++ out; closed := true; log := r.2;
          history := <[client_ip := hist]> (history w);
          ticks := S (S (ticks w)); entropy := e |})
    ∧ (r.1 = Ok () → ∃ response, out = [response])
    ∧ (r.1 ≠ Ok () → out = []).
Proof.
  intros Hp tool hist cls r.
  unfold handle_client, try_except. rewrite Hp.
  unfold mbind, M_bind, io.utcnow, io.history_append, io.with_history.
  cbn beta iota zeta. cbn [history written closed log ticks entropy].
  rewrite lookup_insert_eq. cbn [default].
  fold tool. fold hist. change (id hist) with hist.
  rewrite (classify_client_pair hist tool). fold cls.
  rewrite insert_insert_eq.
  match goal with
  | |- context [_generate_response_body path tool ?w0] =>
      destruct (generate_response_body_effect path tool w0)
        as (response_body & e1 & ->)
  end.
  cbn [history written closed log ticks entropy].
  unfold io.log_event. cbn [history written closed log ticks entropy].
  fold r. destruct r as [[[]|err] lg]; cbn [fst snd].
  - match goal with
    | |- context [_send_response response_body headers ?w0] =>
        destruct (send_response_effect response_body headers w0)
          as (response & e2 & ->)
    end.
    cbn [history written closed log ticks entropy].
    exists [response], e2. split_and!; [done|eauto|done].
  - exists [], e1. rewrite app_nil_r. split_and!; [done|done|done].
Qed.

End http_handler_facts.

Section http_parsing_facts.
Import PyStr http_honeypot spec_http.
Context {rt : Runtime}.







End http_parsing_facts.

Section log_event_facts.
Import logger.

Lemma log_event_mirror timestamp a self :
  events (log_event timestamp a self).2
  = events self ++ [make_event timestamp a].
Proof.
  unfold log_event. by destruct (insert _ _).
Qed.


Lemma log_event_rows_failed timestamp a self :
  writable (conn self) = false →
  (log_event timestamp a self).1 ≠ Ok ()
  ∧ rows (conn (log_event timestamp a self).2) = rows (conn self).
Proof.
  intros Hw. rewrite log_event_offline by done. simpl. done.
Qed.

End log_event_facts.





(** C10.  [classify_client] leaves the history it is given as it found
    it.  The entry for the current request is appended by the HTTP
    handler before it classifies: after a request that parses, the
    history of the peer is the former history followed by one entry
    with the time of the request, the label logged is the one
    [classify_client] computes on that extended history, and no other
    peer's history changes; a request that does not parse changes no
    history. *)
Theorem classify_client_leaves_history {rt : Runtime} :
  (∀ history tool,
     (fingerprint.classify_client history tool).2 = history)
  ∧ (∀ port client_ip reader w method path headers body,
       http_honeypot._read_http_request reader
       = Some (method, path, headers, body) →
       let entry :=
         {| fingerprint.timestamp := utcnow_isoformat (ticks w) |} in
       let former := default [] (history w !! client_ip) in
       let w' := (http_honeypot.handle_client port client_ip reader w).2 in
       history w' = <[client_ip := former ++ [entry]]> (history w)
       ∧ (∀ other, other ≠ client_ip →
            history w' !! other = history w !! other)
       ∧ ∃ e, last (logger.events (log w')) = Some e
              ∧ logger.ev_classification e
                = Some (fingerprint.classify_client (former ++ [entry])
                          (fingerprint.detect_tool headers body (Some path)
                             method)).1)
  ∧ (∀ port client_ip reader w,
       http_honeypot._read_http_request reader = None →
       history (http_honeypot.handle_client port client_ip reader w).2
       = history w).
Proof.
  split_and!.
  - apply classify_client_frame.
  - intros port client_ip reader w method path headers body Hr entry former w'.
    destruct (handle_client_parsed port client_ip reader w _ _ _ _ Hr)
      as (out & e & Hh & _ & _).
    subst w'. rewrite Hh. cbn [snd history log].
    split_and!; [done|..].
    + intros other Hne. by rewrite lookup_insert_ne.
    + rewrite log_event_mirror, last_snoc. eauto.
  - intros port client_ip reader w Hr.
    by rewrite handle_client_unparsed.
Qed.

Lemma classify_client_leaves_history_witness :
  history
    (http_honeypot.handle_client (rt := ascii_runtime.runtime)
       8080 "203.0.113.9"
       (StreamReader.feed_data samples.wp_login_request)
       ascii_runtime.world0).2
  = {[ "203.0.113.9" :=
         [ {| fingerprint.timestamp := "2024-01-01T00:00:00.000000" |} ] ]}.
Proof.
  destruct (proj1 (proj2 (classify_client_leaves_history
                            (rt := ascii_runtime.runtime)))
              8080 "203.0.113.9"
              (StreamReader.feed_data samples.wp_login_request)
              ascii_runtime.world0
              "GET" "/wp-login.php" {[ "Host" := "x" ]} None)
    as (Hh & _).
  - reflexivity.
  - rewrite Hh. reflexivity.
Defined.

(** * Sessions and the store *)

Section session_facts.
Import logger spec_store spec_session.
Context {rt : Runtime}.

Lemma set_writable_id self :
  writable (conn self) = true → set_writable true self = self.
Proof.
  destruct self as [evs [rs s wr]]. simpl. by intros ->.
Qed.

Lemma step_writable self c :
  writable_now c = true → writable (conn (step self c)) = true.
Proof.
  intros Hw. unfold step. by rewrite log_event_online.
Qed.

Lemma run_writable calls self :
  Forall (λ c, writable_now c = true) calls →
  writable (conn self) = true →
  writable (conn (run calls self)) = true.
Proof.
  intros Hall. revert self. induction Hall as [|c calls Hc _ IH]; [done|].
  intros self _. apply IH. by apply step_writable.
Qed.

(** One [log_event] call of a handler on a writable database. *)
Lemma io_log_event_online a w :
  writable (conn (log w)) = true →
  io.log_event a w
  = (Ok (),
     {| written := written w; closed := closed w;
        log := step (log w)
                 {| writable_now := true;
                    call_time := utcnow_isoformat (ticks w);
                    call_args := a |};
        history := history w; ticks := S (ticks w);
        entropy := entropy w |}).
Proof.
  intros Hw. unfold io.log_event, step.
  cbn [writable_now call_time call_args].
  rewrite (set_writable_id _ Hw).
  by rewrite (log_event_online _ _ _ Hw).
Qed.

Lemma calls_from_cons t0 a args :
  calls_from t0 (a :: args)
  = {| writable_now := true; call_time := utcnow_isoformat t0;
       call_args := a |} :: calls_from (S t0) args.
Proof.
  unfold calls_from. rewrite imap_cons. f_equal.
  apply imap_ext. intros i x _. simpl. by rewrite Nat.add_succ_r.
Qed.

Lemma calls_from_writable t0 args :
  Forall (λ c, writable_now c = true) (calls_from t0 args).
Proof.
  unfold calls_from. apply Forall_forall. intros c Hc.
  apply elem_of_lookup_imap in Hc as (i & a & -> & _). done.
Qed.

Lemma length_calls_from t0 args :
  length (calls_from t0 args) = length args.
Proof. apply length_imap. Qed.

(** The store after a session: mirror and table both grow by the
    session's events. *)
Lemma run_calls_from_grows t0 args self :
  wf_db (conn self) →
  length (events (run (calls_from t0 args) self))
  = (length (events self) + length args)%nat
  ∧ length (rows (conn (run (calls_from t0 args) self)))
    = (length (rows (conn self)) + length args)%nat.
Proof.
  intros Hwf.
  destruct (run_state (calls_from t0 args) self Hwf) as (He & Hr & _).
  rewrite He, Hr, !length_app, length_map, length_rows_from.
  rewrite succeeded_all by apply calls_from_writable.
  by rewrite length_calls_from.
Qed.


Lemma run_events calls self :
  events (run calls self)
  = events self ++ map (λ c, make_event (call_time c) (call_args c)) calls.
Proof.
  revert self. induction calls as [|c calls IH]; intros self; simpl.
  - by rewrite app_nil_r.
  - unfold run in *. simpl. rewrite IH. unfold step.
    rewrite log_event_mirror. simpl. by rewrite <- app_assoc.
Qed.

End session_facts.

(** * SSH handler *)

Section ssh_facts.
Import PyStr ssh_honeypot spec_ssh spec_session.
Context {rt : Runtime}.

Lemma login_event_round port client_ip username password k :
  login_event port client_ip username password (S k)
  = round_event port client_ip (S k) (username, password).
Proof.
  unfold login_event, round_event. f_equal. by destruct k.
Qed.

Lemma read_line_cases reader :
  _read_line reader
  = match reader with
    | [] => (None, [])
    | line :: rest =>
        if truthy line then (Some (text_of line), rest) else (None, rest)
    end.
Proof.
  unfold _read_line. destruct reader as [|line rest]; [done|]. simpl.
  by destruct (truthy line).
Qed.

Lemma after_rounds_done port client_ip k reader w :
  (3 ≤ k)%nat → after_rounds port client_ip k reader w = w.
Proof.
  intros Hk. unfold after_rounds.
  replace (3 - k)%nat with 0%nat by lia. simpl.
  rewrite decide_False by lia. rewrite app_nil_r.
  by destruct w.
Qed.

Lemma output_from_cons first round rounds :
  output_from first (round :: rounds)
  = round_output first round ++ output_from (S first) rounds.
Proof.
  unfold output_from. rewrite imap_cons. simpl.
  rewrite Nat.add_0_r. do 4 f_equal.
  apply imap_ext. intros i r _. simpl. by rewrite Nat.add_succ_r.
Qed.

Lemma events_from_cons port client_ip first round rounds :
  events_from port client_ip first (round :: rounds)
  = round_event port client_ip first round
    :: events_from port client_ip (S first) rounds.
Proof.
  unfold events_from. rewrite imap_cons, Nat.add_0_r. f_equal.
  apply imap_ext. intros i r _. simpl. by rewrite Nat.add_succ_r.
Qed.

Lemma completed_rounds_step k username password rest :
  (k < 3)%nat → truthy username = true → truthy password = true →
  completed_rounds (3 - k) (username :: password :: rest)
  = (text_of username, text_of password)
    :: completed_rounds (3 - S k) rest.
Proof.
  intros Hk Hu Hp.
  replace (3 - k)%nat with (S (3 - S k)) by lia.
  simpl. by rewrite Hu, Hp.
Qed.

Lemma completed_rounds_stop k reader :
  match reader with
  | username :: password :: _ => truthy username && truthy password = false
  | _ => True
  end →
  completed_rounds (3 - k) reader = [].
Proof.
  destruct (3 - k)%nat; [done|].
  destruct reader as [|u [|p rest]]; simpl; try done. by intros ->.
Qed.

(** A session that stops before a round is complete. *)
Lemma after_rounds_stop port client_ip k reader w :
  (k < 3)%nat →
  match reader with
  | username :: password :: _ => truthy username && truthy password = false
  | _ => True
  end →
  after_rounds port client_ip k reader w
  = {| written := written w ++ unanswered reader; closed := closed w;
       log := log w; history := history w; ticks := ticks w;
       entropy := entropy w |}.
Proof.
  intros Hk Hstop. unfold after_rounds.
  rewrite completed_rounds_stop by done. simpl.
  by rewrite decide_True by lia.
Qed.

Lemma login_loop_spec port client_ip fuel :
  ∀ k reader w,
    (3 - k ≤ fuel)%nat →
    logger.writable (logger.conn (log w)) = true →
    login_loop fuel port client_ip k reader w
    = (Ok (), after_rounds port client_ip k reader w).
Proof.
  induction fuel as [|fuel IH]; intros k reader w Hfuel Hw.
  - rewrite after_rounds_done by lia. done.
  - cbn [login_loop].
    destruct (k <? 3)%nat eqn:Hk;
      [apply Nat.ltb_lt in Hk
      |apply Nat.ltb_ge in Hk; by rewrite after_rounds_done].
    unfold mbind, M_bind, io.write, io.drain, mret, M_ret.
    cbn beta iota zeta. rewrite read_line_cases.
    destruct reader as [|username reader].
    { by rewrite after_rounds_stop. }
    destruct (truthy username) eqn:Hu; cycle 1.
    { rewrite after_rounds_stop;
        [|done|destruct reader; [done|by rewrite Hu]].
      unfold unanswered. by rewrite Hu. }
    rewrite read_line_cases.
    destruct reader as [|password rest].
    { rewrite after_rounds_stop by done. unfold unanswered. rewrite Hu.
      cbn [written closed log history ticks entropy].
      by rewrite <- app_assoc. }
    destruct (truthy password) eqn:Hp; cycle 1.
    { rewrite after_rounds_stop; [|done|by rewrite Hu, Hp].
      unfold unanswered. rewrite Hu.
      cbn [written closed log history ticks entropy].
      by rewrite <- app_assoc. }
    cbn [written closed log history ticks entropy].
    rewrite io_log_event_online by done.
    cbn [written closed log history ticks entropy].
    rewrite login_event_round.
    unfold after_rounds. rewrite completed_rounds_step by done.
    rewrite output_from_cons, events_from_cons, calls_from_cons.
    cbn [length]. unfold spec_store.run at 1. cbn [foldl].
    fold (spec_store.run
            (calls_from (S (ticks w))
               (events_from port client_ip (S (S k))
                  (completed_rounds (3 - S k) rest)))).
    replace (2 * S (length (completed_rounds (3 - S k) rest)))%nat
      with (S (S (2 * length (completed_rounds (3 - S k) rest)))) by lia.
    cbn [drop].
    destruct (3 <=? S k)%nat eqn:Hlast.
    + apply Nat.leb_le in Hlast.
      replace (3 - S k)%nat with 0%nat by lia. simpl.
      rewrite decide_False by lia. unfold round_output, rejection.
      rewrite decide_False by lia. simpl.
      by rewrite <- !app_assoc.
    + apply Nat.leb_gt in Hlast.
      rewrite IH; [|lia|by apply step_writable]. f_equal.
      unfold after_rounds.
      cbn [written closed log history ticks entropy].
      set (rounds := completed_rounds (3 - S k) rest).
      assert (∀ X : list string,
                (if decide (S k + length rounds < 3)%nat then X else [])
                = (if decide (k + S (length rounds) < 3)%nat then X else []))
        as Hdec.
      { intros X.
        destruct (decide (S k + _ < 3)%nat), (decide (k + S _ < 3)%nat);
          try done; lia. }
      rewrite Hdec. unfold round_output, rejection.
      rewrite (decide_True (P := (S k < 3)%nat)) by lia.
      f_equal; [|lia].
      rewrite <- !app_assoc. reflexivity.
Qed.

Lemma ssh_handle_client_spec port client_ip reader w :
  logger.writable (logger.conn (log w)) = true →
  handle_client port client_ip reader w
  = (Ok (),
     spec_http.only_closed
       (after_rounds port client_ip 0 reader
          {| written := written w ++ [banner];
             closed := closed w; log := log w; history := history w;
             ticks := ticks w; entropy := entropy w |})).
Proof.
  intros Hw.
  unfold handle_client, mbind, M_bind, io.write, io.drain, io.close,
    mret, M_ret.
  cbn beta iota zeta. by rewrite (login_loop_spec _ _ 3).
Qed.

End ssh_facts.



(** * FTP handler *)

Section ftp_facts.
Import PyStr ftp_honeypot spec_ftp spec_session.
Context {rt : Runtime}.

Lemma command_event_pair port client_ip cmd arg :
  ftp_honeypot.command_event port client_ip cmd arg
  = spec_ftp.command_event port client_ip (cmd, arg).
Proof.
  unfold ftp_honeypot.command_event, spec_ftp.command_event. simpl.
  f_equal. f_equal. by case_bool_decide; [rewrite decide_True|rewrite decide_False].
Qed.

Lemma command_of_line line_bytes :
  truthy (strip (decode_replace line_bytes)) = true →
  command_of line_bytes
  = Some (upper (from_option fst (strip (decode_replace line_bytes))
                   (split1 " " (strip (decode_replace line_bytes)))),
          from_option snd EmptyString
            (split1 " " (strip (decode_replace line_bytes)))).
Proof.
  intros Hne. unfold command_of. apply truthy_true in Hne.
  rewrite decide_False by done.
  by destruct (split1 _ _) as [[verb remainder]|].
Qed.

Lemma command_of_blank line_bytes :
  truthy (strip (decode_replace line_bytes)) = false →
  command_of line_bytes = None.
Proof.
  intros He. unfold command_of. apply truthy_false in He.
  by rewrite decide_True.
Qed.

Lemma after_commands_cons port client_ip command cmds reader w :
  commands reader = command :: cmds →
  after_commands port client_ip reader w
  = {| written := written w ++ reply command ++ concat (map reply cmds);
       closed := closed w;
       log := spec_store.run
                (calls_from (S (ticks w))
                   (map (spec_ftp.command_event port client_ip) cmds))
                (spec_store.step (log w)
                   {| spec_store.writable_now := true;
                      spec_store.call_time := utcnow_isoformat (ticks w);
                      spec_store.call_args :=
                        spec_ftp.command_event port client_ip command |});
       history := history w;
       ticks := (length cmds + S (ticks w))%nat;
       entropy := entropy w |}.
Proof.
  intros Hc. unfold after_commands. rewrite Hc.
  cbn [map concat length]. rewrite calls_from_cons.
  unfold spec_store.run. cbn [foldl].
  f_equal. lia.
Qed.

Lemma reply_cases cmd arg :
  reply (cmd, arg)
  = if String.eqb cmd "USER" then
      ["331 Please specify the password." +:+ CRLF]
    else if String.eqb cmd "PASS" then
      ["530 Login incorrect." +:+ CRLF]
    else if String.eqb cmd "PWD" then
      ["257 " +:+ DQUOTE +:+ "/" +:+ DQUOTE +:+ " is the current directory"
       +:+ CRLF]
    else if String.eqb cmd "LIST" then
      ["150 Here comes the directory listing." +:+ CRLF;
       "-rw-r--r-- 1 root root    0 Jan 01 00:00 README.txt" +:+ CRLF
       +:+ "drwxr-xr-x 2 root root 4096 Jan 01 00:00 data" +:+ CRLF;
       "226 Directory send OK." +:+ CRLF]
    else if String.eqb cmd "QUIT" then [goodbye]
    else [not_implemented].
Proof.
  unfold reply. cbn [fst].
  repeat (match goal with
          | |- context [String.eqb cmd ?v] =>
              destruct (String.eqb_spec cmd v);
              [by rewrite decide_True by done|rewrite decide_False by done]
          end).
  done.
Qed.

Lemma command_loop_spec port client_ip reader :
  ∀ w,
    logger.writable (logger.conn (log w)) = true →
    command_loop port client_ip reader w
    = (Ok (), after_commands port client_ip reader w).
Proof.
  induction reader as [|line_bytes reader IH]; intros w Hw.
  - unfold after_commands. simpl. rewrite app_nil_r. by destruct w.
  - cbn [command_loop].
    destruct (truthy line_bytes) eqn:Hline; cycle 1.
    { unfold after_commands. simpl. rewrite Hline. simpl.
      rewrite app_nil_r. by destruct w. }
    cbn [negb].
    destruct (truthy (strip (decode_replace line_bytes))) eqn:Hne; cycle 1.
    { cbn [negb]. rewrite IH by done. f_equal.
      unfold after_commands. simpl.
      by rewrite Hline, (command_of_blank _ Hne). }
    cbn [negb].
    pose proof (command_of_line _ Hne) as Hcmd.
    set (cmd := upper _) in *. set (arg := from_option snd _ _) in *.
    unfold mbind, M_bind.
    rewrite io_log_event_online by done.
    rewrite command_event_pair.
    assert (commands (line_bytes :: reader)
            = (cmd, arg)
              :: (if decide (cmd = "QUIT") then [] else commands reader))
      as Hcmds.
    { simpl. by rewrite Hline, Hcmd. }
    rewrite (after_commands_cons _ _ _ _ _ _ Hcmds), reply_cases.
    unfold io.write, io.drain, mret, M_ret. cbn beta iota zeta.
    cbn [written closed log history ticks entropy].
    clearbody cmd arg.
    destruct (String.eqb_spec cmd "USER") as [->|Hv1];
      [|destruct (String.eqb_spec cmd "PASS") as [->|Hv2];
        [|destruct (String.eqb_spec cmd "PWD") as [->|Hv3];
          [|destruct (String.eqb_spec cmd "LIST") as [->|Hv4];
            [|destruct (String.eqb_spec cmd "QUIT") as [->|Hv5]]]]].
    all: try (rewrite decide_False by done;
              rewrite IH by (by apply step_writable); f_equal;
              unfold after_commands;
              cbn [written closed log history ticks entropy];
              by rewrite <- !app_assoc).
    rewrite decide_True by done.
    cbn [written closed log history ticks entropy map concat length].
    unfold calls_from, spec_store.run. cbn [imap foldl Nat.add].
    reflexivity.
Qed.

Lemma ftp_handle_client_spec port client_ip reader w :
  logger.writable (logger.conn (log w)) = true →
  handle_client port client_ip reader w
  = (Ok (),
     spec_http.only_closed
       (after_commands port client_ip reader
          {| written := written w ++ [greeting];
             closed := closed w; log := log w;
             history := history w; ticks := ticks w;
             entropy := entropy w |})).
Proof.
  intros Hw.
  unfold handle_client, mbind, M_bind, io.write, io.drain, io.close,
    mret, M_ret.
  cbn beta iota zeta. by rewrite command_loop_spec.
Qed.

End ftp_facts.



(** * The request type and the detected tool *)

Section new_events.
Import logger.
Context {rt : Runtime}.

(** The events a session appended to the mirror. *)
Lemma new_events_tool calls self :
  Forall (λ c, tool (spec_store.call_args c) = None) calls →
  Forall (λ e, ev_tool e = None)
    (drop (length (events self)) (events (spec_store.run calls self))).
Proof.
  intros Hall. rewrite run_events, drop_app_length.
  apply Forall_fmap. eapply Forall_impl; [exact Hall|]. done.
Qed.

Lemma calls_from_tool t0 args :
  Forall (λ a, tool a = None) args →
  Forall (λ c, tool (spec_store.call_args c) = None)
    (spec_session.calls_from t0 args).
Proof.
  intros Hall. apply Forall_forall. intros c Hc.
  apply elem_of_lookup_imap in Hc as (i & a & -> & Ha). simpl.
  rewrite Forall_forall in Hall. apply Hall.
  by eapply list_elem_of_lookup_2.
Qed.

End new_events.

(** C9.  [detect_tool] does not look at its [request_type] argument.
    With empty headers, no payload and no path it returns [None], so
    the tool the SSH and FTP handlers record is always [None]: in the
    arguments they pass to [log_event], and in every event a session
    adds to the store. *)
Theorem detect_tool_ignores_request_type {rt : Runtime} :
  (∀ headers payload path request_type1 request_type2,
     fingerprint.detect_tool headers payload path request_type1
     = fingerprint.detect_tool headers payload path request_type2)
  ∧ (∀ request_type,
       fingerprint.detect_tool ∅ None None request_type = None)
  ∧ (∀ port client_ip username password attempts,
       logger.tool
         (ssh_honeypot.login_event port client_ip username password attempts)
       = fingerprint.detect_tool ∅ None None "SSH")
  ∧ (∀ port client_ip cmd arg,
       logger.tool (ftp_honeypot.command_event port client_ip cmd arg)
       = fingerprint.detect_tool ∅ None None cmd)
  ∧ (∀ port client_ip reader w,
       logger.writable (logger.conn (log w)) = true →
       Forall (λ e, logger.ev_tool e = None)
         (drop (length (logger.events (log w)))
            (logger.events
               (log (ssh_honeypot.handle_client port client_ip reader w).2)))
       ∧ Forall (λ e, logger.ev_tool e = None)
           (drop (length (logger.events (log w)))
              (logger.events
                 (log (ftp_honeypot.handle_client port client_ip reader
                         w).2)))).
Proof.
  split_and!; [reflexivity|reflexivity|reflexivity|reflexivity|].
  intros port client_ip reader w Hw. split.
  - rewrite ssh_handle_client_spec by done.
    unfold spec_http.only_closed, spec_ssh.after_rounds.
    cbn [snd log ticks].
    apply new_events_tool, calls_from_tool.
    unfold spec_ssh.events_from. apply Forall_forall. intros a Ha.
    by apply elem_of_lookup_imap in Ha as (i & r & -> & _).
  - rewrite ftp_handle_client_spec by done.
    unfold spec_http.only_closed, spec_ftp.after_commands.
    cbn [snd log ticks].
    apply new_events_tool, calls_from_tool.
    by apply Forall_fmap, Forall_forall.
Qed.

Lemma detect_tool_ignores_request_type_witness :
  Forall (λ e, logger.ev_tool e = None)
    (drop (length (logger.events (log ascii_runtime.world0)))
       (logger.events
          (log (ftp_honeypot.handle_client (rt := ascii_runtime.runtime)
                  2121 "203.0.113.9"
                  (StreamReader.feed_data samples.ftp_session)
                  ascii_runtime.world0).2))).
Proof.
  apply (proj2 (proj2 (proj2 (proj2
           (detect_tool_ignores_request_type (rt := ascii_runtime.runtime)))))
           2121 "203.0.113.9" (StreamReader.feed_data samples.ftp_session)
           ascii_runtime.world0 eq_refl).
Defined.

(** * Further properties of the Fingerprint Engine *)

Section detect_tool_more.
Import PyStr fingerprint.

Lemma truthy_lower s : truthy (lower s) = truthy s.
Proof. by destruct s. Qed.


Lemma signature_text_lower headers payload :
  signature_text headers payload
  = let ua := lower (default EmptyString (headers !! "User-Agent")) in
    if negb (truthy ua) && truthy_opt payload
    then lower (default EmptyString payload)
    else ua.
Proof. unfold signature_text. by rewrite signature_text_header. Qed.





Lemma scan_signatures_label ua table label :
  scan_signatures ua table = Some label → label ∈ map fst table.
Proof.
  induction table as [|[l pats] table IH]; simpl; [done|].
  rewrite scan_patterns_existsb. destruct (existsb _ pats).
  - intros [= <-]. by left.
  - intros Hs. right. by apply IH.
Qed.

Lemma path_hint_label path label :
  path_hint path = Some label →
  In label ["wordpress_scanner"; "phpmyadmin_scanner"; "file_inclusion"].
Proof.
  unfold path_hint. intros Hr.
  repeat case_match; simplify_eq; simpl; tauto.
Qed.

Lemma payload_hint_label payload label :
  payload_hint payload = Some label → label = "sql_injection".
Proof.
  unfold payload_hint. intros Hr.
  repeat case_match; by simplify_eq.
Qed.

Lemma detect_tool_label_in headers payload path request_type label :
  detect_tool headers payload path request_type = Some label →
  In label spec_more.tool_labels.
Proof.
  rewrite detect_tool_unfold.
  destruct (scan_signatures _ _) as [l|] eqn:Hscan.
  { intros [= <-]. apply scan_signatures_label in Hscan. simpl in Hscan.
    apply list_elem_of_In in Hscan. simpl in *. tauto. }
  intros Hr.
  destruct (path_hint path) as [l|] eqn:Hpath.
  - injection Hr as <-. apply path_hint_label in Hpath. simpl in *. tauto.
  - apply payload_hint_label in Hr as ->. simpl. tauto.
Qed.

Lemma tool_labels_truthy label :
  In label spec_more.tool_labels → truthy label = true.
Proof.
  simpl. intros Hl.
  repeat (destruct Hl as [<-|Hl]; [done|]). done.
Qed.

Lemma detect_tool_truthy headers payload path request_type :
  truthy_opt (detect_tool headers payload path request_type)
  = bool_decide (is_Some (detect_tool headers payload path request_type)).
Proof.
  destruct (detect_tool _ _ _ _) as [label|] eqn:Hd; simpl.
  - by eapply tool_labels_truthy, detect_tool_label_in.
  - done.
Qed.

End detect_tool_more.

(** X1.  [detect_tool] returns nothing or one of ten fixed labels, never
    the empty string: a detected tool is always truthy. *)
Theorem detect_tool_labels :
  ∀ headers payload path request_type label,
    fingerprint.detect_tool headers payload path request_type = Some label →
    label ∈ spec_more.tool_labels ∧ PyStr.truthy label = true.
Proof.
  intros headers payload path request_type label Hd.
  apply detect_tool_label_in in Hd. split.
  - by apply list_elem_of_In.
  - by apply tool_labels_truthy.
Qed.

Lemma detect_tool_labels_witness :
  "wordpress_scanner" ∈ spec_more.tool_labels
  ∧ PyStr.truthy "wordpress_scanner" = true.
Proof.
  apply (detect_tool_labels {[ "Host" := "x" ]} None (Some "/wp-admin/")
           "GET" "wordpress_scanner").
  reflexivity.
Defined.



(** X3.  A non-empty User-Agent shadows the payload as signature
    source: then the payload counts only through the SQL keyword scan,
    so a scanner name in the payload goes unnoticed. *)
Theorem user_agent_shadows_payload :
  ∀ (headers : gmap string string) ua payload payload' path request_type,
    headers !! "User-Agent" = Some ua → ua ≠ EmptyString →
    fingerprint.payload_hint payload = fingerprint.payload_hint payload' →
    fingerprint.detect_tool headers payload path request_type
    = fingerprint.detect_tool headers payload' path request_type.
Proof.
  intros headers ua payload payload' path request_type Hua Hne Hhint.
  rewrite !detect_tool_unfold, !signature_text_lower, Hua, Hhint. simpl.
  apply truthy_true in Hne. by rewrite truthy_lower, Hne.
Qed.

Lemma user_agent_shadows_payload_witness :
  fingerprint.detect_tool {[ "User-Agent" := "curl/8.5" ]}
    (Some "nikto nmap sqlmap") (Some "/") "POST"
  = fingerprint.detect_tool {[ "User-Agent" := "curl/8.5" ]}
      None (Some "/") "POST".
Proof.
  apply (user_agent_shadows_payload _ "curl/8.5"); [reflexivity|done|].
  reflexivity.
Defined.

(** * Further properties of the Classification Engine *)

Section classify_more.
Import fingerprint spec_classify.
Context {rt : Runtime}.

Lemma parsed_elem_of entries times t :
  parsed entries times →
  t ∈ times ↔ ∃ e, e ∈ entries ∧ fromisoformat (timestamp e) = Some t.
Proof.
  unfold parsed. induction 1 as [|e t' entries times He _ IH].
  - split; [by intros ?%elem_of_nil|by intros (? & ?%elem_of_nil & _)].
  - rewrite elem_of_cons, IH. split.
    + intros [->|(e' & Hin & Hp)]; [exists e; split; [by left|done]|].
      exists e'. split; [by right|done].
    + intros (e' & [->|Hin]%elem_of_cons & Hp); [left; congruence|].
      right. eauto.
Qed.

Lemma comparable_dec times : Decision (comparable times).
Proof.
  destruct (decide (Forall (λ a, Forall (λ b, dt_aware a = dt_aware b) times)
                      times)) as [Hall|Hno].
  - left. by apply comparable_Forall.
  - right. intros Hc. apply Hno. apply Forall_forall. intros a Ha.
    apply Forall_forall. intros b Hb. by apply Hc.
Qed.

Lemma same_timestamps_entries (l l' : list HistEntry) e :
  (∀ ts, ts ∈ map timestamp l ↔ ts ∈ map timestamp l') →
  e ∈ l → ∃ e', e' ∈ l' ∧ timestamp e' = timestamp e.
Proof.
  intros Hset Hin.
  assert (timestamp e ∈ map timestamp l) as Hts
    by (apply list_elem_of_fmap; eauto).
  apply Hset, list_elem_of_fmap in Hts as (e' & Heq & Hin'). eauto.
Qed.

(** The outcome of the [try] block depends on the timestamps as a set. *)
Lemma rapid_same_set (l l' : list HistEntry) :
  (∀ ts, ts ∈ map timestamp l ↔ ts ∈ map timestamp l') →
  rapid (map timestamp l) = rapid (map timestamp l').
Proof.
  intros Hset.
  assert (∀ l l' : list HistEntry,
            (∀ ts, ts ∈ map timestamp l ↔ ts ∈ map timestamp l') →
            mapM fromisoformat (map timestamp l) = None →
            mapM fromisoformat (map timestamp l') = None) as Hnone.
  { clear. intros l l' Hset Hm.
    destruct (mapM _ (map timestamp l')) as [times'|] eqn:Hm'; [|done].
    exfalso.
    assert (is_Some (mapM fromisoformat (map timestamp l'))) as Hs' by eauto.
    apply mapM_is_Some in Hs'. rewrite Forall_forall in Hs'.
    assert (is_Some (mapM fromisoformat (map timestamp l))) as [? Hs];
      [|congruence].
    apply mapM_is_Some, Forall_forall. intros ts Hts. by apply Hs', Hset. }
  destruct (mapM fromisoformat (map timestamp l)) as [times|] eqn:Hm.
  2:{ unfold rapid. rewrite Hm, (Hnone l l' Hset Hm). done. }
  destruct (mapM fromisoformat (map timestamp l')) as [times'|] eqn:Hm'.
  2:{ assert (∀ ts, ts ∈ map timestamp l' ↔ ts ∈ map timestamp l) as Hset'
        by (intros ts; symmetry; apply Hset).
      rewrite (Hnone l' l Hset' Hm') in Hm. done. }
  apply mapM_parsed in Hm, Hm'.
  assert (∀ t, t ∈ times ↔ t ∈ times') as Htimes.
  { intros t. rewrite (parsed_elem_of _ _ _ Hm), (parsed_elem_of _ _ _ Hm').
    split; intros (e & Hin & Hp).
    - destruct (same_timestamps_entries l l' e Hset Hin) as (e' & Hin' & Heq).
      exists e'. split; [done|]. by rewrite Heq.
    - assert (∀ ts, ts ∈ map timestamp l' ↔ ts ∈ map timestamp l) as Hset'
        by (intros ts; symmetry; apply Hset).
      destruct (same_timestamps_entries l' l e Hset' Hin) as (e' & Hin' & Heq).
      exists e'. split; [done|]. by rewrite Heq. }
  destruct (decide (times = [])) as [->|Hne].
  { assert (times' = []) as ->.
    { destruct times' as [|t ?]; [done|].
      assert (t ∈ @nil datetime) as ?%elem_of_nil by (apply Htimes; by left).
      done. }
    apply Forall2_nil_inv_r in Hm as ->. by apply Forall2_nil_inv_r in Hm' as ->. }
  assert (times' ≠ []) as Hne'.
  { intros ->. destruct times as [|t ?]; [done|].
    assert (t ∈ @nil datetime) as ?%elem_of_nil by (apply Htimes; by left).
    done. }
  destruct (comparable_dec times) as [Hc|Hn].
  - assert (comparable times') as Hc'
      by (intros a b Ha Hb; apply Hc; by apply Htimes).
    destruct (rapid_comparable _ _ Hm Hne Hc)
      as (hi & lo & Hhi & Hlo & Hb & ->).
    destruct (rapid_comparable _ _ Hm' Hne' Hc')
      as (hi' & lo' & Hhi' & Hlo' & Hb' & ->).
    pose proof (Hb hi' (proj2 (Htimes _) Hhi')).
    pose proof (Hb lo' (proj2 (Htimes _) Hlo')).
    pose proof (Hb' hi (proj1 (Htimes _) Hhi)).
    pose proof (Hb' lo (proj1 (Htimes _) Hlo)).
    do 2 f_equal; lia.
  - assert (¬ comparable times') as Hn'.
    { intros Hc'. apply Hn. intros a b Ha Hb. apply Hc'; by apply Htimes. }
    by rewrite (rapid_mixed _ _ Hm Hn), (rapid_mixed _ _ Hm' Hn').
Qed.

End classify_more.

(** X4.  [classify_client] looks at the last five entries only, and at
    their timestamps only as a set: older entries, the order of the
    last five and repetitions among them do not change the label. *)
Theorem classify_client_last_five_as_set {rt : Runtime} :
  ∀ older older' recent recent' tool,
    length recent = 5%nat → length recent' = 5%nat →
    (∀ ts, ts ∈ map fingerprint.timestamp recent
           ↔ ts ∈ map fingerprint.timestamp recent') →
    (fingerprint.classify_client (older ++ recent) tool).1
    = (fingerprint.classify_client (older' ++ recent') tool).1.
Proof.
  intros older older' recent recent' tool Hlen Hlen' Hset.
  destruct (PyStr.truthy_opt tool) eqn:Htool.
  - unfold fingerprint.classify_client. by rewrite Htool.
  - apply truthy_opt_false in Htool.
    rewrite !classify_recent by done.
    by rewrite (rapid_same_set recent recent' Hset).
Qed.

Lemma classify_client_last_five_as_set_witness :
  (fingerprint.classify_client (rt := ascii_runtime.runtime)
     ([] ++ samples_more.burst) None).1
  = (fingerprint.classify_client (rt := ascii_runtime.runtime)
       (samples_more.old_visits ++ rev samples_more.burst) None).1.
Proof.
  apply (classify_client_last_five_as_set (rt := ascii_runtime.runtime));
    [reflexivity|reflexivity|].
  intros ts. unfold samples_more.burst. simpl.
  rewrite !elem_of_cons. rewrite !elem_of_nil. tauto.
Defined.

(** * Further properties of the HTTP honeypot *)

Section http_more.
Import PyStr http_honeypot.
Context {rt : Runtime}.


Lemma generate_response_body_cases path detected_tool w :
  ∃ body e,
    _generate_response_body path detected_tool w
    = (Ok body,
       {| written := written w; closed := closed w; log := log w;
          history := history w; ticks := ticks w; entropy := e |})
    ∧ ascii_runtime.all_ascii body = true
    ∧ body ≠ EmptyString
    ∧ (e = entropy w ∨ e = tl (entropy w)).
Proof.
  unfold _generate_response_body, io.choice, mbind, M_bind, mret, M_ret.
  repeat match goal with
         | |- context [if ?b then _ else _] => destruct b
         end;
    try (eexists _, (entropy w);
         split; [destruct w; reflexivity|];
         split; [vm_compute; reflexivity|];
         split; [intros Hb; vm_compute in Hb; discriminate Hb|by left]).
  eexists _, (tl (entropy w)). split; [reflexivity|].
  cbn [length].
  destruct (hd 0%nat (entropy w) mod 4)%nat as [|[|[|[|[|n]]]]];
    (split; [vm_compute; reflexivity|]);
    (split; [intros Hb; vm_compute in Hb; discriminate Hb|by right]).
Qed.

Lemma generate_response_body_entropy path detected_tool w1 w2 :
  entropy w1 = entropy w2 →
  (_generate_response_body path detected_tool w1).1
  = (_generate_response_body path detected_tool w2).1.
Proof.
  intros He.
  unfold _generate_response_body, io.choice, mbind, M_bind, mret, M_ret.
  repeat match goal with
         | |- context [if ?b then _ else _] => destruct b
         end; try reflexivity.
  cbn [fst]. by rewrite He.
Qed.

Lemma generate_response_body_lure path :
  spec.any_occurs ["wp-login"; "wp-admin"; "phpmyadmin"] (lower path) →
  ∃ body,
    (∀ tool' w', _generate_response_body path tool' w' = (Ok body, w')).
Proof.
  intros Hl. apply existsb_any_occurs in Hl. simpl in Hl.
  rewrite orb_false_r, orb_assoc in Hl.
  unfold _generate_response_body.
  destruct (contains "wp-login" (lower path)
            || contains "wp-admin" (lower path)); [by eexists|].
  simpl in Hl. rewrite Hl. by eexists.
Qed.


Lemma classify_client_label hist tool :
  (fingerprint.classify_client hist tool).1
  = if truthy_opt tool then "scanner"
    else if (5 <=? length hist)%nat then
      match fingerprint.rapid (map fingerprint.timestamp
                                 (fingerprint.last5 hist)) with
      | Some true => "bot"
      | _ => "human"
      end
    else "human".
Proof.
  unfold fingerprint.classify_client.
  destruct (truthy_opt tool); [done|].
  destruct (5 <=? length hist)%nat; [|done].
  by destruct (fingerprint.rapid _) as [[|]|].
Qed.

(** One parsed request, step by step. *)
Lemma handle_client_run port client_ip reader w method path headers body :
  _read_http_request reader = Some (method, path, headers, body) →
  let tool := fingerprint.detect_tool headers body (Some path) method in
  let hist :=
    default [] (history w !! client_ip)
    ++ [ {| fingerprint.timestamp := utcnow_isoformat (ticks w) |} ] in
  let cls := (fingerprint.classify_client hist tool).1 in
  let a := http_event port client_ip method path headers body tool cls in
  ∃ decoy e1,
    (_generate_response_body path tool w).1 = Ok decoy
    ∧ ascii_runtime.all_ascii decoy = true
    ∧ handle_client port client_ip reader w
      = try_except
          (λ w0, match io.log_event a w0 with
                 | (Ok _, w1) => _send_response decoy headers w1
                 | (Raise err, w1) => (Raise err, w1)
                 end)
          io.close
          {| written := written w; closed := closed w; log := log w;
             history := <[client_ip := hist]> (history w);
             ticks := S (ticks w); entropy := e1 |}.
Proof.
  intros Hp tool hist cls a.
  unfold handle_client, try_except. rewrite Hp.
  unfold mbind, M_bind, io.utcnow, io.history_append, io.with_history.
  cbn beta iota zeta. cbn [history written closed log ticks entropy].
  rewrite lookup_insert_eq. cbn [default].
  fold tool. fold hist. change (id hist) with hist.
  rewrite (classify_client_pair hist tool). fold cls.
  rewrite insert_insert_eq.
  match goal with
  | |- context [_generate_response_body path tool (Build_World ?x1 ?x2 ?x3 ?x4 ?x5 ?x6)] =>
      destruct (generate_response_body_cases path tool
                  (Build_World x1 x2 x3 x4 x5 x6))
        as (decoy & e1 & Hgen & Hascii & _ & _);
      pose proof (generate_response_body_entropy path tool
                    (Build_World x1 x2 x3 x4 x5 x6) w eq_refl)
        as Hsame
  end.
  rewrite Hgen in Hsame. rewrite Hgen.
  cbn [history written closed log ticks entropy].
  exists decoy, e1. split_and!; [done|done|reflexivity].
Qed.

(** One [log_event] call of a handler on a database that rejects the
    insert. *)
Lemma io_log_event_offline a w :
  logger.writable (logger.conn (log w)) = false →
  io.log_event a w
  = (Raise OperationalError,
     {| written := written w; closed := closed w;
        log := {| logger.events :=
                    logger.events (log w)
                    ++ [logger.make_event (utcnow_isoformat (ticks w)) a];
                  logger.conn := logger.conn (log w) |};
        history := history w; ticks := S (ticks w);
        entropy := entropy w |}).
Proof.
  intros Hw. unfold io.log_event.
  by rewrite (log_event_offline _ _ _ Hw).
Qed.

Lemma prefix_empty s : String.prefix EmptyString s = true.
Proof. by destruct s. Qed.

Lemma split1_first sep k v :
  contains (String sep EmptyString) k = false →
  split1 sep (k +:+ String sep v) = Some (k, v).
Proof.
  induction k as [|c k IH]; intros Hk.
  - rewrite str_app_empty_l. simpl. by rewrite Ascii.eqb_refl.
  - rewrite str_app_cons. cbn [contains String.prefix] in Hk. simpl.
    destruct (ascii_dec sep c) as [->|Hne].
    { by rewrite prefix_empty in Hk. }
    assert (Ascii.eqb c sep = false) as ->
      by (apply Ascii.eqb_neq; congruence).
    by rewrite IH.
Qed.

Lemma truthy_app_cons k c v : truthy (k +:+ String c v) = true.
Proof.
  destruct k; [by rewrite str_app_empty_l|by rewrite str_app_cons].
Qed.

Lemma read_headers_pair line reader h k v :
  line ≠ EmptyString →
  strip (decode_replace line) = k +:+ ":" +:+ v →
  ¬ spec.occurs ":" k →
  read_headers (line :: reader) h
  = read_headers reader (<[strip k := strip v]> h).
Proof.
  intros Hne Hline Hk. apply truthy_true in Hne.
  apply contains_false in Hk.
  assert (":" +:+ v = String ":" v) as Hv
    by (by rewrite str_app_cons, str_app_empty_l).
  rewrite Hv in Hline.
  cbn [read_headers]. rewrite Hne, Hline. cbn [negb].
  rewrite truthy_app_cons. cbn [negb].
  assert (contains ":" (k +:+ String ":" v) = true) as ->.
  { apply contains_occurs. exists k, v. by rewrite Hv. }
  by rewrite split1_first.
Qed.

Lemma read_headers_skip line reader h :
  line ≠ EmptyString →
  strip (decode_replace line) ≠ EmptyString →
  ¬ spec.occurs ":" (strip (decode_replace line)) →
  read_headers (line :: reader) h = read_headers reader h.
Proof.
  intros Hne Hs Hno. apply truthy_true in Hne, Hs.
  apply contains_false in Hno.
  cbn [read_headers]. by rewrite Hne, Hs, Hno.
Qed.



End http_more.

(** X5.  The event the HTTP handler logs carries the tool [detect_tool]
    found and one of the labels "scanner", "bot" and "human": "scanner"
    exactly when a tool was found, and "human" when no tool was found
    and the peer has fewer than four earlier entries in its history, so
    that no peer is called a bot before its fifth parsed request. *)
Theorem http_event_labels {rt : Runtime} :
  ∀ port client_ip reader w method path headers body,
    http_honeypot._read_http_request reader
    = Some (method, path, headers, body) →
    ∃ e,
      last (logger.events
              (log (http_honeypot.handle_client port client_ip reader w).2))
      = Some e
      ∧ logger.ev_tool e
        = fingerprint.detect_tool headers body (Some path) method
      ∧ logger.ev_classification e
        ∈ [Some "scanner"; Some "bot"; Some "human"]
      ∧ (logger.ev_classification e = Some "scanner"
         ↔ is_Some (logger.ev_tool e))
      ∧ ((length (default [] (history w !! client_ip)) < 4)%nat →
         logger.ev_tool e = None →
         logger.ev_classification e = Some "human").
Proof.
  intros port client_ip reader w method path headers body Hr.
  destruct (handle_client_parsed port client_ip reader w _ _ _ _ Hr)
    as (out & e & -> & _ & _).
  cbn [snd log]. rewrite log_event_mirror, last_snoc.
  eexists. split; [reflexivity|].
  cbn [logger.make_event logger.ev_tool logger.ev_classification
         http_honeypot.http_event logger.tool logger.classification].
  split; [reflexivity|].
  rewrite classify_client_label, detect_tool_truthy.
  destruct (fingerprint.detect_tool headers body (Some path) method)
    as [label|] eqn:Hd.
  - rewrite bool_decide_eq_true_2 by eauto.
    split_and!; [by left|split; eauto|done].
  - rewrite bool_decide_eq_false_2 by (by intros [? ?]).
    rewrite length_app. cbn [length].
    assert (∀ c, c = "bot" ∨ c = "human" →
                 Some c ∈ [Some "scanner"; Some "bot"; Some "human"]
                 ∧ (Some c = Some "scanner" ↔ is_Some (@None string)))
      as Hlab.
    { intros c [-> | ->].
      - split; [by right; left|].
        split; [done|by intros [? ?]].
      - split; [by right; right; left|].
        split; [done|by intros [? ?]]. }
    destruct (5 <=? _)%nat eqn:H5.
    + destruct (fingerprint.rapid _) as [[|]|].
      * destruct (Hlab "bot") as [? ?]; [by left|].
        split_and!; [done|done|].
        intros Hlt _. apply Nat.leb_le in H5. lia.
      * destruct (Hlab "human") as [? ?]; [by right|]. by split_and!.
      * destruct (Hlab "human") as [? ?]; [by right|]. by split_and!.
    + destruct (Hlab "human") as [? ?]; [by right|]. by split_and!.
Qed.

Lemma http_event_labels_witness :
  ∃ e,
    last (logger.events
            (log (http_honeypot.handle_client (rt := ascii_runtime.runtime)
                    8080 "203.0.113.9"
                    (StreamReader.feed_data samples.wp_login_request)
                    ascii_runtime.world0).2))
    = Some e
    ∧ logger.ev_tool e = Some "wordpress_scanner"
    ∧ logger.ev_classification e = Some "scanner".
Proof.
  destruct (http_event_labels (rt := ascii_runtime.runtime)
              8080 "203.0.113.9"
              (StreamReader.feed_data samples.wp_login_request)
              ascii_runtime.world0
              "GET" "/wp-login.php" {[ "Host" := "x" ]} None)
    as (e & He & Htool & _ & Hcls & _).
  - reflexivity.
  - exists e. split; [exact He|].
    assert (logger.ev_tool e = Some "wordpress_scanner") as Ht
      by (rewrite Htool; reflexivity).
    split; [exact Ht|]. apply Hcls. rewrite Ht. by eexists.
Defined.

(** X6.  When the database rejects the insert, the HTTP handler answers
    nothing: it swallows the error, writes no response and closes the
    connection.  The table is unchanged, while the in-memory mirror and
    the history of the peer have each grown by one entry. *)
Theorem http_storage_failure_is_silent {rt : Runtime} :
  ∀ port client_ip reader w method path headers body,
    http_honeypot._read_http_request reader
    = Some (method, path, headers, body) →
    logger.writable (logger.conn (log w)) = false →
    (http_honeypot.handle_client port client_ip reader w).1 = Ok ()
    ∧ written (http_honeypot.handle_client port client_ip reader w).2
      = written w
    ∧ closed (http_honeypot.handle_client port client_ip reader w).2 = true
    ∧ logger.conn
        (log (http_honeypot.handle_client port client_ip reader w).2)
      = logger.conn (log w)
    ∧ length
        (logger.events
           (log (http_honeypot.handle_client port client_ip reader w).2))
      = S (length (logger.events (log w)))
    ∧ length
        (default []
           (history (http_honeypot.handle_client port client_ip reader w).2
              !! client_ip))
      = S (length (default [] (history w !! client_ip))).
Proof.
  intros port client_ip reader w method path headers body Hr Hw.
  destruct (handle_client_run port client_ip reader w _ _ _ _ Hr)
    as (decoy & e1 & _ & _ & ->).
  unfold try_except. rewrite io_log_event_offline by done.
  cbn [io.close fst snd written closed log history ticks entropy
         logger.conn logger.events].
  rewrite lookup_insert_eq. cbn [default]. unfold id.
  rewrite !length_app. cbn [length].
  split_and!; try reflexivity; lia.
Qed.

Lemma http_storage_failure_is_silent_witness :
  (http_honeypot.handle_client (rt := ascii_runtime.runtime)
     8080 "203.0.113.9"
     (StreamReader.feed_data samples.wp_login_request)
     samples_more.offline_world).1 = Ok ()
  ∧ written
      (http_honeypot.handle_client (rt := ascii_runtime.runtime)
         8080 "203.0.113.9"
         (StreamReader.feed_data samples.wp_login_request)
         samples_more.offline_world).2
    = written samples_more.offline_world.
Proof.
  destruct (http_storage_failure_is_silent (rt := ascii_runtime.runtime)
              8080 "203.0.113.9"
              (StreamReader.feed_data samples.wp_login_request)
              samples_more.offline_world
              "GET" "/wp-login.php" {[ "Host" := "x" ]} None)
    as (Hres & Hout & _).
  - reflexivity.
  - reflexivity.
  - split; [exact Hres|exact Hout].
Defined.

(** X7.  [_generate_response_body] never fails and always yields a
    non-empty ASCII body; it touches nothing but the random source, from
    which it takes at most one choice.  A path that mentions wp-login,
    wp-admin or phpmyadmin, in any letter case, gets a login decoy that
    depends on the path rule alone: neither the detected tool nor the
    random source has a say, and the random source is left alone. *)
Theorem decoy_body_rules {rt : Runtime} :
  (∀ path detected_tool w,
     ∃ body e,
       http_honeypot._generate_response_body path detected_tool w
       = (Ok body,
          {| written := written w; closed := closed w; log := log w;
             history := history w; ticks := ticks w; entropy := e |})
       ∧ ascii_runtime.all_ascii body = true
       ∧ body ≠ EmptyString
       ∧ (e = entropy w ∨ e = tl (entropy w)))
  ∧ (∀ path,
       spec.any_occurs ["wp-login"; "wp-admin"; "phpmyadmin"]
         (PyStr.lower path) →
       ∃ body,
         ∀ detected_tool w,
           http_honeypot._generate_response_body path detected_tool w
           = (Ok body, w)).
Proof.
  split.
  - apply generate_response_body_cases.
  - apply generate_response_body_lure.
Qed.

Lemma decoy_body_rules_witness :
  ∃ body,
    ∀ detected_tool w,
      http_honeypot._generate_response_body "/WP-Admin/setup.php"
        detected_tool w
      = (Ok body, w).
Proof.
  apply (proj2 (decoy_body_rules (rt := ascii_runtime.runtime))
           "/WP-Admin/setup.php").
  exists "wp-admin". split; [by right; left|].
  exists "/", "/setup.php". reflexivity.
Defined.





(** X10.  A header line is cut at its first colon, so a value may hold
    colons of its own; key and value are stripped of surrounding white
    space.  A line without a colon is skipped, and of two lines with the
    same key the later one wins. *)
Theorem header_lines_split_at_first_colon {rt : Runtime} :
  (∀ line reader h k v,
     line ≠ EmptyString →
     PyStr.strip (decode_replace line) = k +:+ ":" +:+ v →
     ¬ spec.occurs ":" k →
     http_honeypot.read_headers (line :: reader) h
     = http_honeypot.read_headers reader
         (<[PyStr.strip k := PyStr.strip v]> h))
  ∧ (∀ line reader h,
       line ≠ EmptyString →
       PyStr.strip (decode_replace line) ≠ EmptyString →
       ¬ spec.occurs ":" (PyStr.strip (decode_replace line)) →
       http_honeypot.read_headers (line :: reader) h
       = http_honeypot.read_headers reader h)
  ∧ (∀ line1 line2 reader h k1 v1 k2 v2,
       line1 ≠ EmptyString → line2 ≠ EmptyString →
       PyStr.strip (decode_replace line1) = k1 +:+ ":" +:+ v1 →
       PyStr.strip (decode_replace line2) = k2 +:+ ":" +:+ v2 →
       ¬ spec.occurs ":" k1 → ¬ spec.occurs ":" k2 →
       PyStr.strip k1 = PyStr.strip k2 →
       http_honeypot.read_headers (line1 :: line2 :: reader) h
       = http_honeypot.read_headers reader
           (<[PyStr.strip k2 := PyStr.strip v2]> h)).
Proof.
  split_and!.
  - intros. by apply read_headers_pair.
  - intros. by apply read_headers_skip.
  - intros line1 line2 reader h k1 v1 k2 v2 Hn1 Hn2 Hl1 Hl2 Hk1 Hk2 Hk.
    rewrite (read_headers_pair line1 _ _ k1 v1) by done.
    rewrite (read_headers_pair line2 _ _ k2 v2) by done.
    by rewrite Hk, insert_insert_eq.
Qed.

Lemma header_lines_split_at_first_colon_witness :
  http_honeypot.read_headers (rt := ascii_runtime.runtime)
    [ "Host : example.org:8080" +:+ PyStr.CRLF ] ∅
  = http_honeypot.read_headers (rt := ascii_runtime.runtime) []
      (<[PyStr.strip "Host " := PyStr.strip " example.org:8080"]> ∅).
Proof.
  apply (proj1 (header_lines_split_at_first_colon
                  (rt := ascii_runtime.runtime))).
  - done.
  - reflexivity.
  - apply contains_false. reflexivity.
Defined.

(** X11.  The HTTP handler never raises and always closes the
    connection, whatever the peer sends and whether or not the database
    takes the insert. *)
Theorem http_handler_always_closes {rt : Runtime} :
  ∀ port client_ip reader w,
    (http_honeypot.handle_client port client_ip reader w).1 = Ok ()
    ∧ closed (http_honeypot.handle_client port client_ip reader w).2 = true.
Proof.
  intros port client_ip reader w.
  destruct (http_honeypot._read_http_request reader)
    as [[[[method path] headers] body]|] eqn:Hr.
  - destruct (handle_client_parsed port client_ip reader w _ _ _ _ Hr)
      as (out & e & -> & _ & _).
    by split.
  - by rewrite handle_client_unparsed.
Qed.

(** * SSH and FTP sessions on a database that rejects inserts *)

Section offline_sessions.
Import PyStr spec_session.
Context {rt : Runtime}.

Lemma ssh_handle_client_offline port client_ip reader w :
  logger.writable (logger.conn (log w)) = false →
  ssh_honeypot.handle_client port client_ip reader w
  = match spec_ssh.completed_rounds 3 reader with
    | [] =>
        (Ok (),
         {| written :=
              written w ++ [spec_ssh.banner] ++ spec_ssh.unanswered reader;
            closed := true; log := log w; history := history w;
            ticks := ticks w; entropy := entropy w |})
    | round :: _ =>
        (Raise OperationalError,
         {| written :=
              written w
              ++ [spec_ssh.banner; spec_ssh.login_prompt;
                  spec_ssh.password_prompt round.1];
            closed := closed w;
            log :=
              {| logger.events :=
                   logger.events (log w)
                   ++ [logger.make_event (utcnow_isoformat (ticks w))
                         (spec_ssh.round_event port client_ip 1 round)];
                 logger.conn := logger.conn (log w) |};
            history := history w; ticks := S (ticks w);
            entropy := entropy w |})
    end.
Proof.
  intros Hw.
  unfold ssh_honeypot.handle_client. cbn [ssh_honeypot.login_loop].
  change (0 <? 3)%nat with true. cbn iota.
  unfold mbind, M_bind, io.write, io.drain, io.close, mret, M_ret.
  cbn beta iota zeta. rewrite read_line_cases.
  cbn [written closed log history ticks entropy].
  destruct reader as [|username reader]; cbn [spec_ssh.completed_rounds].
  { cbn [spec_ssh.unanswered]. by rewrite <- !app_assoc. }
  destruct (truthy username) eqn:Hu; cycle 1.
  { destruct reader; cbn [spec_ssh.unanswered andb]; rewrite ?Hu;
      cbn [andb]; by rewrite <- !app_assoc. }
  rewrite read_line_cases.
  destruct reader as [|password rest].
  { cbn [spec_ssh.unanswered]. rewrite Hu.
    cbn [written closed log history ticks entropy].
    by rewrite <- !app_assoc. }
  cbn [andb].
  destruct (truthy password) eqn:Hp; cycle 1.
  { cbn [spec_ssh.unanswered]. rewrite Hu.
    cbn [written closed log history ticks entropy].
    by rewrite <- !app_assoc. }
  cbn [written closed log history ticks entropy].
  rewrite io_log_event_offline by done.
  cbn [written closed log history ticks entropy fst].
  rewrite login_event_round. by rewrite <- !app_assoc.
Qed.

Lemma ftp_command_loop_offline port client_ip reader :
  ∀ w,
    logger.writable (logger.conn (log w)) = false →
    ftp_honeypot.command_loop port client_ip reader w
    = match spec_ftp.commands reader with
      | [] => (Ok (), w)
      | command :: _ =>
          (Raise OperationalError,
           {| written := written w; closed := closed w;
              log :=
                {| logger.events :=
                     logger.events (log w)
                     ++ [logger.make_event (utcnow_isoformat (ticks w))
                           (spec_ftp.command_event port client_ip command)];
                   logger.conn := logger.conn (log w) |};
              history := history w; ticks := S (ticks w);
              entropy := entropy w |})
      end.
Proof.
  induction reader as [|line_bytes reader IH]; intros w Hw; [done|].
  cbn [ftp_honeypot.command_loop spec_ftp.commands].
  destruct (truthy line_bytes) eqn:Hline; [|done]. cbn [negb].
  destruct (truthy (strip (decode_replace line_bytes))) eqn:Hne; cycle 1.
  { cbn [negb]. rewrite (command_of_blank _ Hne). by apply IH. }
  cbn [negb]. rewrite (command_of_line _ Hne).
  unfold mbind, M_bind. rewrite io_log_event_offline by done.
  by rewrite command_event_pair.
Qed.

End offline_sessions.

(** X12.  The SSH handler does not catch a storage failure.  On a
    database that rejects the insert, a peer that completes a first
    round makes the handler raise [OperationalError] right after the
    two prompts: no rejection is written, the connection is not closed
    by the handler, the table is unchanged and the mirror holds the
    event.  A peer that completes no round is served as usual. *)
Theorem ssh_storage_failure_propagates {rt : Runtime} :
  ∀ port client_ip reader w,
    logger.writable (logger.conn (log w)) = false →
    (∀ round rounds,
       spec_ssh.completed_rounds 3 reader = round :: rounds →
       ssh_honeypot.handle_client port client_ip reader w
       = (Raise OperationalError,
          {| written :=
               written w
               ++ [spec_ssh.banner; spec_ssh.login_prompt;
                   spec_ssh.password_prompt round.1];
             closed := closed w;
             log :=
               {| logger.events :=
                    logger.events (log w)
                    ++ [logger.make_event (utcnow_isoformat (ticks w))
                          (spec_ssh.round_event port client_ip 1 round)];
                  logger.conn := logger.conn (log w) |};
             history := history w; ticks := S (ticks w);
             entropy := entropy w |}))
    ∧ (spec_ssh.completed_rounds 3 reader = [] →
       ssh_honeypot.handle_client port client_ip reader w
       = (Ok (),
          {| written :=
               written w ++ [spec_ssh.banner] ++ spec_ssh.unanswered reader;
             closed := true; log := log w; history := history w;
             ticks := ticks w; entropy := entropy w |})).
Proof.
  intros port client_ip reader w Hw.
  rewrite (ssh_handle_client_offline _ _ _ _ Hw).
  split.
  - intros round rounds ->. reflexivity.
  - intros ->. reflexivity.
Qed.

Lemma ssh_storage_failure_propagates_witness :
  (ssh_honeypot.handle_client (rt := ascii_runtime.runtime)
     2222 "203.0.113.9" (StreamReader.feed_data samples.three_logins)
     samples_more.offline_world).1 = Raise OperationalError
  ∧ closed
      (ssh_honeypot.handle_client (rt := ascii_runtime.runtime)
         2222 "203.0.113.9" (StreamReader.feed_data samples.three_logins)
         samples_more.offline_world).2 = false.
Proof.
  rewrite (proj1 (ssh_storage_failure_propagates
                    (rt := ascii_runtime.runtime)
                    2222 "203.0.113.9"
                    (StreamReader.feed_data samples.three_logins)
                    samples_more.offline_world eq_refl)
             ("root", "toor") [("admin", "admin"); ("pi", "raspberry")]
             eq_refl).
  split; reflexivity.
Defined.

(** X13.  The FTP handler does not catch a storage failure either.  On
    a database that rejects the insert, the first command of the peer
    makes the handler raise [OperationalError]: only the greeting has
    been written, the command gets no reply, the connection is not
    closed by the handler, the table is unchanged and the mirror holds
    the event.  A peer that sends no command is served as usual. *)
Theorem ftp_storage_failure_propagates {rt : Runtime} :
  ∀ port client_ip reader w,
    logger.writable (logger.conn (log w)) = false →
    (∀ command cmds,
       spec_ftp.commands reader = command :: cmds →
       ftp_honeypot.handle_client port client_ip reader w
       = (Raise OperationalError,
          {| written := written w ++ [spec_ftp.greeting];
             closed := closed w;
             log :=
               {| logger.events :=
                    logger.events (log w)
                    ++ [logger.make_event (utcnow_isoformat (ticks w))
                          (spec_ftp.command_event port client_ip command)];
                  logger.conn := logger.conn (log w) |};
             history := history w; ticks := S (ticks w);
             entropy := entropy w |}))
    ∧ (spec_ftp.commands reader = [] →
       ftp_honeypot.handle_client port client_ip reader w
       = (Ok (),
          {| written := written w ++ [spec_ftp.greeting];
             closed := true; log := log w; history := history w;
             ticks := ticks w; entropy := entropy w |})).
Proof.
  intros port client_ip reader w Hw.
  unfold ftp_honeypot.handle_client, mbind, M_bind, io.write, io.drain,
    io.close, mret, M_ret.
  cbn beta iota zeta.
  rewrite ftp_command_loop_offline by done.
  split.
  - intros command cmds ->. reflexivity.
  - intros ->. reflexivity.
Qed.

Lemma ftp_storage_failure_propagates_witness :
  (ftp_honeypot.handle_client (rt := ascii_runtime.runtime)
     2121 "203.0.113.9" (StreamReader.feed_data samples.ftp_session)
     samples_more.offline_world).1 = Raise OperationalError
  ∧ written
      (ftp_honeypot.handle_client (rt := ascii_runtime.runtime)
         2121 "203.0.113.9" (StreamReader.feed_data samples.ftp_session)
         samples_more.offline_world).2 = [spec_ftp.greeting].
Proof.
  rewrite (proj1 (ftp_storage_failure_propagates
                    (rt := ascii_runtime.runtime)
                    2121 "203.0.113.9"
                    (StreamReader.feed_data samples.ftp_session)
                    samples_more.offline_world eq_refl)
             ("USER", "a")
             [("PASS", "b"); ("PWD", EmptyString); ("LIST", EmptyString);
              ("QUIT", EmptyString)]
             eq_refl).
  split; reflexivity.
Defined.



(** * Event store and dashboard *)

Section string_order.
Import spec_more.

Lemma ascii_compare_refl c : Ascii.compare c c = Eq.
Proof. unfold Ascii.compare. apply N.compare_refl. Qed.

Lemma ascii_compare_lt_trans a b c :
  Ascii.compare a b = Lt → Ascii.compare b c = Lt → Ascii.compare a c = Lt.
Proof.
  unfold Ascii.compare. rewrite !N.compare_lt_iff. apply N.lt_trans.
Qed.

Lemma string_compare_lt_trans a :
  ∀ b c, String.compare a b = Lt → String.compare b c = Lt →
         String.compare a c = Lt.
Proof.
  induction a as [|x a IH]; intros [|y b] [|z c]; simpl; try done.
  destruct (Ascii.compare x y) eqn:Hxy; try done;
    destruct (Ascii.compare y z) eqn:Hyz; try done.
  - apply Ascii.compare_eq_iff in Hxy as ->,  Hyz as ->.
    rewrite ascii_compare_refl. apply IH.
  - apply Ascii.compare_eq_iff in Hxy as ->. by rewrite Hyz.
  - apply Ascii.compare_eq_iff in Hyz as <-. by rewrite Hxy.
  - by rewrite (ascii_compare_lt_trans _ _ _ Hxy Hyz).
Qed.

Lemma str_lt_compare a b : str_lt a b ↔ String.compare a b = Lt.
Proof.
  unfold str_lt, String.ltb. by destruct (String.compare a b).
Qed.

Lemma str_lt_trans a b c : str_lt a b → str_lt b c → str_lt a c.
Proof. rewrite !str_lt_compare. apply string_compare_lt_trans. Qed.

Lemma string_compare_refl a : String.compare a a = Eq.
Proof.
  induction a as [|x a IH]; simpl; [done|].
  by rewrite ascii_compare_refl.
Qed.

Lemma str_lt_irrefl a : ¬ str_lt a a.
Proof. by rewrite str_lt_compare, string_compare_refl. Qed.

Lemma str_lt_total a b : a ≠ b → ¬ str_lt a b → str_lt b a.
Proof.
  rewrite !str_lt_compare. intros Hne Hnlt.
  rewrite String.compare_antisym.
  destruct (String.compare a b) eqn:Hc; try done.
  by apply String.compare_eq_iff in Hc.
Qed.

End string_order.

Section counting.
Import dashboard spec_more.

Lemma count_of_count_up key k counts :
  count_of key (count_up k counts)
  = if String.eqb k key then S (count_of key counts)
    else count_of key counts.
Proof.
  induction counts as [|[k' n] rest IH]; simpl; [done|].
  destruct (String.eqb_spec k' k) as [->|Hk]; simpl.
  - by destruct (String.eqb k key).
  - rewrite IH. destruct (String.eqb_spec k' key) as [->|Hk']; [|done].
    destruct (String.eqb_spec k key) as [->|]; done.
Qed.

Lemma keys_count_up k counts :
  map fst (count_up k counts)
  = if decide (k ∈ map fst counts) then map fst counts
    else map fst counts ++ [k].
Proof.
  induction counts as [|[k' n] rest IH]; cbn [count_up map fst].
  - destruct (decide (k ∈ [])) as [Hin|]; [|done].
    by apply elem_of_nil in Hin.
  - destruct (String.eqb_spec k' k) as [->|Hk]; cbn [map fst].
    + rewrite decide_True; [done|by left].
    + rewrite IH. destruct (decide (k ∈ map fst rest)) as [Hin|Hnin].
      * rewrite decide_True; [done|by right].
      * rewrite decide_False; [done|].
        intros [Heq|?]%elem_of_cons; [congruence|done].
Qed.

Lemma NoDup_count_up k counts :
  NoDup (map fst counts) → NoDup (map fst (count_up k counts)).
Proof.
  intros Hnd. rewrite keys_count_up.
  destruct (decide _) as [|Hnin]; [done|].
  apply NoDup_app. split_and!; [done| |apply NoDup_singleton].
  intros x Hx ->%list_elem_of_singleton. done.
Qed.

Lemma sum_count_up k counts :
  sum_list (map snd (count_up k counts)) = S (sum_list (map snd counts)).
Proof.
  induction counts as [|[k' n] rest IH]; simpl; [done|].
  destruct (String.eqb k' k); simpl; [done|]. rewrite IH. lia.
Qed.

Lemma count_of_absent key counts :
  key ∉ map fst counts → count_of key counts = 0%nat.
Proof.
  induction counts as [|[k n] rest IH]; simpl; [done|].
  intros Hnin. destruct (String.eqb_spec k key) as [->|Hk].
  - exfalso. apply Hnin. by left.
  - apply IH. intros Hin. apply Hnin. by right.
Qed.

Lemma count_of_lookup counts i key n :
  NoDup (map fst counts) → counts !! i = Some (key, n) →
  count_of key counts = n.
Proof.
  revert i. induction counts as [|[k m] rest IH]; intros i Hnd Hi; [done|].
  simpl in Hnd. apply NoDup_cons in Hnd as [Hk Hnd].
  destruct i as [|i]; simpl in *.
  - injection Hi as -> ->. by rewrite String.eqb_refl.
  - destruct (String.eqb_spec k key) as [->|Hne]; [|by eapply IH].
    exfalso. apply Hk. apply list_elem_of_fmap. exists (key, n).
    split; [done|]. by eapply list_elem_of_lookup_2.
Qed.

(** Counting the elements of a list by a key. *)
Lemma tally_spec {A} (key_of : A → string) (xs : list A) :
  ∀ counts,
    NoDup (map fst counts) →
    let counts' := foldl (λ c x, count_up (key_of x) c) counts xs in
    NoDup (map fst counts')
    ∧ sum_list (map snd counts')
      = (sum_list (map snd counts) + length xs)%nat
    ∧ ∀ key, count_of key counts'
             = (count_of key counts
                + length (filter (λ x, key_of x = key) xs))%nat.
Proof.
  induction xs as [|x xs IH]; intros counts Hnd; simpl.
  - split_and!; [done|lia|]. intros key. lia.
  - destruct (IH (count_up (key_of x) counts)) as (Hnd' & Hsum & Hcount).
    { by apply NoDup_count_up. }
    split_and!; [done|rewrite Hsum, sum_count_up; lia|].
    intros key. rewrite Hcount, count_of_count_up, filter_cons.
    destruct (String.eqb_spec (key_of x) key) as [Heq|Hne].
    + rewrite decide_True by done. simpl. lia.
    + by rewrite decide_False by done.
Qed.

Lemma Counter_fmap {A} (key_of : A → string) (xs : list A) :
  Counter (map key_of xs) = foldl (λ c x, count_up (key_of x) c) [] xs.
Proof.
  unfold Counter. generalize (@nil (string * nat)).
  induction xs as [|x xs IH]; intros c; simpl; [done|]. apply IH.
Qed.

(** What a tally says, read by position. *)
Lemma tally_read {A} (key_of : A → string) (xs : list A) :
  let counts := foldl (λ c x, count_up (key_of x) c) [] xs in
  NoDup (map fst counts)
  ∧ sum_list (map snd counts) = length xs
  ∧ (∀ i key n,
       counts !! i = Some (key, n) →
       n = length (filter (λ x, key_of x = key) xs))
  ∧ (∀ key, key ∈ map fst counts ↔ ∃ x, x ∈ xs ∧ key_of x = key).
Proof.
  destruct (tally_spec key_of xs []) as (Hnd & Hsum & Hcount);
    [apply NoDup_nil_2|].
  cbn zeta. split_and!; [done|by rewrite Hsum| |].
  - intros i key n Hi.
    by rewrite <- (count_of_lookup _ _ _ _ Hnd Hi), Hcount.
  - intros key. split.
    + intros Hin.
      destruct (filter (λ x, key_of x = key) xs) as [|x l] eqn:Hf.
      * exfalso. apply list_elem_of_fmap in Hin as ([k n] & -> & Hin).
        apply list_elem_of_lookup_1 in Hin as [i Hi]. simpl in *.
        pose proof (count_of_lookup _ _ _ _ Hnd Hi) as Hn.
        rewrite Hcount, Hf in Hn. simpl in Hn. subst n.
        clear -Hi. revert i Hi.
        assert (∀ (ys : list A) c,
                  Forall (λ p, (0 < p.2)%nat) c →
                  Forall (λ p, (0 < p.2)%nat)
                    (foldl (λ c x, count_up (key_of x) c) c ys)) as Hpos.
        { clear. induction ys as [|y ys IH]; intros c Hc; [done|]. simpl.
          apply IH. clear IH.
          induction Hc as [|[k' m] c Hm Hc IHc]; simpl.
          - repeat constructor.
          - destruct (String.eqb k' (key_of y)); constructor; simpl in *;
              try done; lia. }
        intros i Hi.
        pose proof (Hpos xs [] (Forall_nil_2 _)) as Hall.
        rewrite Forall_lookup in Hall. specialize (Hall i _ Hi).
        simpl in Hall. lia.
      * assert (x ∈ filter (λ x, key_of x = key) xs) as Hx
          by (rewrite Hf; by left).
        apply list_elem_of_filter in Hx as [? ?]. eauto.
    + intros (x & Hx & <-).
      destruct (decide (key_of x ∈ map fst
                  (foldl (λ c x, count_up (key_of x) c) [] xs)))
        as [|Hnin]; [done|].
      exfalso. apply count_of_absent in Hnin. rewrite Hcount in Hnin.
      simpl in Hnin.
      assert (x ∈ filter (λ y, key_of y = key_of x) xs) as Hf
        by (by apply list_elem_of_filter).
      destruct (filter _ xs); [by apply elem_of_nil in Hf|].
      simpl in Hnin. lia.
Qed.

Lemma insert_sorted_Permutation x l : insert_sorted x l ≡ₚ x :: l.
Proof.
  induction l as [|y l IH]; simpl; [done|].
  destruct (item_lt x y); [done|]. rewrite IH. apply Permutation_swap.
Qed.

Lemma sorted_Permutation items : sorted items ≡ₚ items.
Proof.
  unfold sorted.
  assert (∀ acc, foldl (λ acc x, insert_sorted x acc) acc items
                 ≡ₚ acc ++ items) as Hgen; [|apply (Hgen [])].
  induction items as [|x items IH]; intros acc; simpl.
  - by rewrite app_nil_r.
  - rewrite IH, insert_sorted_Permutation. apply Permutation_middle.
Qed.

Lemma item_lt_keys x y :
  x.1 ≠ y.1 → item_lt x y = true ↔ str_lt x.1 y.1.
Proof.
  intros Hne. unfold item_lt, str_lt.
  destruct (String.eqb_spec x.1 y.1); [done|].
  by rewrite andb_false_l, orb_false_r.
Qed.

Lemma insert_sorted_ascending x l :
  x.1 ∉ map fst l →
  StronglySorted (λ a b, str_lt a.1 b.1) l →
  StronglySorted (λ a b, str_lt a.1 b.1) (insert_sorted x l).
Proof.
  intros Hnin Hs. induction Hs as [|y l Hs IH Hall]; simpl.
  - repeat constructor.
  - assert (x.1 ≠ y.1) as Hne by (intros Heq; apply Hnin; rewrite Heq; by left).
    assert (x.1 ∉ map fst l) as Hnin' by (intros Hin; apply Hnin; by right).
    destruct (item_lt x y) eqn:Hlt.
    + apply item_lt_keys in Hlt; [|done].
      constructor; [by constructor|].
      constructor; [done|].
      eapply Forall_impl; [exact Hall|]. simpl. intros z Hz.
      by eapply str_lt_trans.
    + constructor; [by apply IH|].
      rewrite insert_sorted_Permutation. constructor; [|done].
      apply str_lt_total; [done|].
      intros Hxy. apply item_lt_keys in Hxy; [|done]. congruence.
Qed.

Lemma sorted_ascending items :
  NoDup (map fst items) →
  StronglySorted (λ a b, str_lt a.1 b.1) (sorted items).
Proof.
  unfold sorted.
  assert (∀ acc,
            NoDup (map fst (acc ++ items)) →
            StronglySorted (λ a b, str_lt a.1 b.1) acc →
            StronglySorted (λ a b, str_lt a.1 b.1)
              (foldl (λ acc x, insert_sorted x acc) acc items)) as Hgen.
  { induction items as [|x items IH]; intros acc Hnd Hs; simpl; [done|].
    rewrite map_app in Hnd. simpl in Hnd.
    apply NoDup_app in Hnd as (Hacc & Hdisj & Hnd).
    apply NoDup_cons in Hnd as [Hx Hnd].
    apply IH.
    - rewrite map_app, insert_sorted_Permutation. simpl.
      apply NoDup_cons. split.
      + intros [Hin|Hin]%elem_of_app; [|done].
        eapply Hdisj; [exact Hin|by left].
      + apply NoDup_app. split_and!; [done| |done].
        intros z Hz Hz'. eapply Hdisj; [exact Hz|by right].
    - apply insert_sorted_ascending; [|done].
      intros Hin. eapply Hdisj; [exact Hin|by left]. }
  intros Hnd. apply Hgen; [done|constructor].
Qed.

End counting.

Section dashboard_store.
Import logger dashboard spec_store.

Lemma event_of_row_fetched r : event_of_row r = fetched_of_row r.
Proof. reflexivity. Qed.

Lemma order_by_id_asc_sorted rs :
  StronglySorted (λ a b, row_id a < row_id b) rs →
  order_by_id_asc rs = rs.
Proof.
  induction 1 as [|r rs Hs IH Hall]; simpl; [done|].
  fold (order_by_id_asc rs). rewrite IH.
  destruct rs as [|x rs]; [done|]. simpl.
  apply Forall_cons in Hall as [Hx _].
  by rewrite (proj2 (Z.ltb_lt _ _) Hx).
Qed.

Lemma load_events_rows db :
  wf_db db → load_events db = map fetched_of_row (rows db).
Proof.
  intros (Hs & _). unfold load_events.
  by rewrite order_by_id_asc_sorted.
Qed.




End dashboard_store.

(** X15.  The dashboard reads back what the logger wrote: on a database
    written by this program, [load_events] returns the whole table
    oldest first, which is the unlimited [query_events] result
    reversed, and the events of later [log_event] calls whose insert
    succeeded follow the earlier ones in call order, each field as
    appended (the two maps after their trip through JSON). *)
Theorem dashboard_reads_what_was_logged :
  (∀ self,
     spec_store.wf_db (logger.conn self) →
     dashboard.load_events (logger.conn self)
     = rev (logger.query_events (-1) self)
     ∧ StronglySorted (λ a b, logger.f_id a < logger.f_id b)
         (dashboard.load_events (logger.conn self)))
  ∧ (∀ calls self,
       spec_store.wf_db (logger.conn self) →
       dashboard.load_events (logger.conn (spec_store.run calls self))
       = dashboard.load_events (logger.conn self)
         ++ spec_store.stored_from (logger.seq (logger.conn self))
              (spec_store.succeeded calls)).
Proof.
  split.
  - intros self Hwf. rewrite load_events_rows by done. split.
    + rewrite query_events_all by (done || by left).
      by rewrite rev_involutive.
    + destruct Hwf as (Hs & _).
      by apply (StronglySorted_fmap _
                  (λ a b, logger.row_id a < logger.row_id b)).
  - intros calls self Hwf.
    destruct (run_state calls self Hwf) as (_ & Hrows & _ & Hwf').
    rewrite !load_events_rows by done.
    by rewrite Hrows, map_app, fetched_rows_from.
Qed.

Lemma dashboard_reads_what_was_logged_witness :
  dashboard.load_events
    (logger.conn
       (spec_store.run samples.two_logins_same_instant logger.init))
  = [ spec_store.stored 1 samples.midnight (samples.login "root");
      spec_store.stored 2 samples.midnight (samples.login "admin") ].
Proof.
  rewrite (proj2 dashboard_reads_what_was_logged
             samples.two_logins_same_instant logger.init).
  - reflexivity.
  - split_and!; simpl; [constructor|constructor|lia].
Defined.



(** X17.  [compute_tool_counts] counts every event exactly once.  Its
    labels are pairwise distinct, an event without a tool (NULL or the
    empty string) is counted under "unknown", a label is listed exactly
    when some event carries it, and the value at the position of a
    label is the number of events that carry it; the values add up to
    the number of events. *)
Theorem tool_counts_partition_events :
  ∀ events,
    length (dashboard.compute_tool_counts events).1
    = length (dashboard.compute_tool_counts events).2
    ∧ NoDup (dashboard.compute_tool_counts events).1
    ∧ sum_list (dashboard.compute_tool_counts events).2 = length events
    ∧ (∀ label,
         label ∈ (dashboard.compute_tool_counts events).1
         ↔ ∃ e, e ∈ events
                ∧ dashboard.or_unknown (logger.f_tool e) = label)
    ∧ (∀ i label n,
         (dashboard.compute_tool_counts events).1 !! i = Some label →
         (dashboard.compute_tool_counts events).2 !! i = Some n →
         n = length
               (filter (λ e, dashboard.or_unknown (logger.f_tool e) = label)
                  events))
    ∧ (∀ e, e ∈ events →
            logger.f_tool e = None ∨ logger.f_tool e = Some EmptyString →
            dashboard.or_unknown (logger.f_tool e) = "unknown")
    ∧ EmptyString ∉ (dashboard.compute_tool_counts events).1.
Proof.
  intros events. unfold dashboard.compute_tool_counts. cbn [fst snd].
  rewrite Counter_fmap.
  destruct (tally_read (λ e, dashboard.or_unknown (logger.f_tool e)) events)
    as (Hnd & Hsum & Hpos & Hkeys).
  split_and!; [by rewrite !length_map|done|done|done| | |].
  - intros i label n Hl Hn. apply (Hpos i).
    rewrite list_lookup_fmap in Hl. rewrite list_lookup_fmap in Hn.
    destruct (_ !! i) as [[k m]|]; simpl in *; congruence.
  - by intros e _ [-> | ->].
  - intros (e & _ & He)%Hkeys. unfold dashboard.or_unknown in He.
    destruct (logger.f_tool e) as [[|c t]|]; simpl in He; discriminate.
Qed.

(** X18.  [compute_time_series] counts every event exactly once.  Its
    labels are strictly ascending in string order, a timestamp that
    does not parse is counted under "unknown", a label is listed
    exactly when some event falls into its minute, and the value at the
    position of a label is the number of events of that minute; the
    values add up to the number of events. *)
Theorem time_series_partitions_events :
  ∀ (minute_of : string → option string) events,
    length (dashboard.compute_time_series minute_of events).1
    = length (dashboard.compute_time_series minute_of events).2
    ∧ StronglySorted spec_more.str_lt
        (dashboard.compute_time_series minute_of events).1
    ∧ sum_list (dashboard.compute_time_series minute_of events).2
      = length events
    ∧ (∀ label,
         label ∈ (dashboard.compute_time_series minute_of events).1
         ↔ ∃ e, e ∈ events
                ∧ dashboard.minute_key minute_of (logger.f_timestamp e)
                  = label)
    ∧ (∀ i label n,
         (dashboard.compute_time_series minute_of events).1 !! i
         = Some label →
         (dashboard.compute_time_series minute_of events).2 !! i = Some n →
         n = length
               (filter
                  (λ e, dashboard.minute_key minute_of (logger.f_timestamp e)
                        = label) events))
    ∧ (∀ e, e ∈ events →
            minute_of (logger.f_timestamp e) = None →
            dashboard.minute_key minute_of (logger.f_timestamp e)
            = "unknown").
Proof.
  intros minute_of events. unfold dashboard.compute_time_series.
  cbn [fst snd].
  set (key_of := λ e : logger.Fetched,
         dashboard.minute_key minute_of (logger.f_timestamp e)).
  destruct (tally_read key_of events) as (Hnd & Hsum & Hpos & Hkeys).
  set (counts := foldl _ [] events) in *.
  pose proof (sorted_Permutation counts) as Hperm.
  split_and!.
  - by rewrite !length_map.
  - apply (StronglySorted_fmap _ (λ a b, spec_more.str_lt a.1 b.1)); [done|].
    by apply sorted_ascending.
  - by rewrite Hperm.
  - intros label. by rewrite Hperm.
  - intros i label n Hl Hn.
    rewrite list_lookup_fmap in Hl. rewrite list_lookup_fmap in Hn.
    destruct (dashboard.sorted counts !! i) as [[k m]|] eqn:Hi;
      simpl in *; [|done].
    injection Hl as ->. injection Hn as ->.
    apply list_elem_of_lookup_2 in Hi. rewrite Hperm in Hi.
    apply list_elem_of_lookup_1 in Hi as [j Hj]. by apply (Hpos j).
  - intros e _ He. unfold dashboard.minute_key. by rewrite He.
Qed.


